(** * function_app.py: blob-triggered forwarding of log files to Observe

    A shallow embedding of [src/function_app.py] and the properties of its
    format handlers, its batcher and its sender.

    Conventions of the embedding:
    - a Python [str] is the list of its code points ([str := list Z]);
      [bytes] is [list byte];
    - a Python value that travels as a record is a [json] tree;
    - code that logs, posts or raises runs in the monad [M]: a function of
      the [World] (log, issued POSTs, calls of [send_batch]) that returns
      either a value or a raised exception, together with the new world;
    - the library functions the program calls ([json.loads], [json.dumps],
      [xmltodict.parse], [gzip.compress], [requests.post], [os.getenv])
      are parameters of the program section; module [Ref] gives one
      executable choice for them, used to run the program on concrete
      inputs. *)

From Stdlib Require Import ZArith List Bool Lia.
From Stdlib Require Import Strings.String Strings.Ascii Strings.Byte.
From Stdlib Require DecimalString.
Import ListNotations.
Local Open Scope Z_scope.

(** ** Python strings and bytes *)

Definition str := list Z.
Definition bytes := list byte.

Definition len {A : Type} (l : list A) : Z := Z.of_nat (List.length l).

(** A string literal of the source, as code points. *)
Definition lit (s : string) : str :=
  map (fun a => Z.of_N (N_of_ascii a)) (list_ascii_of_string s).

Definition byte_val (b : byte) : Z := Z.of_N (Byte.to_N b).

Definition byte_of_Z (z : Z) : byte :=
  match Byte.of_N (Z.to_N z) with
  | Some b => b
  | None => x00
  end.

Fixpoint str_eqb (s t : str) : bool :=
  match s, t with
  | [], [] => true
  | c :: s', d :: t' => (c =? d) && str_eqb s' t'
  | _, _ => false
  end.

Fixpoint startswith (s prefix : str) : bool :=
  match prefix, s with
  | [], _ => true
  | p :: prefix', c :: s' => (c =? p) && startswith s' prefix'
  | _ :: _, [] => false
  end.

(** [s.endswith(suffix)] *)
Definition endswith (s suffix : str) : bool :=
  startswith (rev s) (rev suffix).

(** [sep.join(parts)] *)
Fixpoint join (sep : str) (parts : list str) : str :=
  match parts with
  | [] => []
  | [p] => p
  | p :: rest => p ++ sep ++ join sep rest
  end.

(** The string ["\n"]. *)
Definition newline : str := [0x0A].

(** [str.isspace] of one character: the code points CPython's
    [_PyUnicode_IsWhitespace] accepts. *)
Definition isspace (c : Z) : bool :=
  ((0x09 <=? c) && (c <=? 0x0D)) || ((0x1C <=? c) && (c <=? 0x20))
  || (c =? 0x85) || (c =? 0xA0) || (c =? 0x1680)
  || ((0x2000 <=? c) && (c <=? 0x200A))
  || (c =? 0x2028) || (c =? 0x2029) || (c =? 0x202F) || (c =? 0x205F)
  || (c =? 0x3000).

Fixpoint lstrip (s : str) : str :=
  match s with
  | [] => []
  | c :: s' => if isspace c then lstrip s' else s
  end.

Definition rstrip (s : str) : str := rev (lstrip (rev s)).

(** [s.strip()]: whitespace is removed at both ends. *)
Definition strip (s : str) : str := rstrip (lstrip s).

(** The line boundaries of [str.splitlines] (CPython's
    [_PyUnicode_IsLinebreak]). *)
Definition is_linebreak (c : Z) : bool :=
  ((0x0A <=? c) && (c <=? 0x0D)) || ((0x1C <=? c) && (c <=? 0x1E))
  || (c =? 0x85) || (c =? 0x2028) || (c =? 0x2029).

(** [splitlines_from line s]: the lines of [s], where [line] holds the
    characters of the current line read so far.  A line break closes the
    current line (empty or not); CR LF is one break; what follows the last
    break is a line only if it is not empty. *)
Fixpoint splitlines_from (line : str) (s : str) : list str :=
  match s with
  | [] => match line with [] => [] | _ :: _ => [line] end
  | c :: rest =>
      if is_linebreak c then
        line ::
          match rest with
          | d :: rest' =>
              if (c =? 0x0D) && (d =? 0x0A) then splitlines_from [] rest'
              else splitlines_from [] rest
          | [] => splitlines_from [] rest
          end
      else splitlines_from (line ++ [c]) rest
  end.

(** [s.splitlines()] *)
Definition splitlines (s : str) : list str := splitlines_from [] s.

(** ** Exceptions and results *)

(** Instances of Python's [Exception].  The program tells
    [json.JSONDecodeError] from the others; [Exception_] stands for any
    other subclass, with a tag for what raised it. *)
Inductive exn : Type :=
| JSONDecodeError
| UnicodeDecodeError
| Exception_ (what : string).

Definition is_JSONDecodeError (e : exn) : bool :=
  match e with JSONDecodeError => true | _ => false end.

(** [except Exception] *)
Definition is_Exception (e : exn) : bool := true.

Inductive result (A : Type) : Type :=
| Ok (a : A)
| Raise (e : exn).
Arguments Ok {A} a.
Arguments Raise {A} e.

(** ** UTF-8 *)

Definition is_cont (b : Z) : bool := (0x80 <=? b) && (b <=? 0xBF).

Definition cons_ok (c : Z) (r : result str) : result str :=
  match r with
  | Ok s => Ok (c :: s)
  | Raise e => Raise e
  end.

(** Strict UTF-8 decoding of byte values: over-long forms, surrogates and
    code points above U+10FFFF are errors, as is a truncated sequence. *)
Fixpoint utf8_decode (l : list Z) : result str :=
  match l with
  | [] => Ok []
  | b0 :: t0 =>
      if b0 <? 0x80 then cons_ok b0 (utf8_decode t0)
      else if (0xC2 <=? b0) && (b0 <=? 0xDF) then
        match t0 with
        | b1 :: t1 =>
            if is_cont b1
            then cons_ok ((b0 - 0xC0) * 64 + (b1 - 0x80)) (utf8_decode t1)
            else Raise UnicodeDecodeError
        | _ => Raise UnicodeDecodeError
        end
      else if (0xE0 <=? b0) && (b0 <=? 0xEF) then
        match t0 with
        | b1 :: b2 :: t2 =>
            if ((if b0 =? 0xE0 then 0xA0 else 0x80) <=? b1)
               && (b1 <=? (if b0 =? 0xED then 0x9F else 0xBF))
               && is_cont b2
            then cons_ok ((b0 - 0xE0) * 4096 + (b1 - 0x80) * 64 + (b2 - 0x80))
                         (utf8_decode t2)
            else Raise UnicodeDecodeError
        | _ => Raise UnicodeDecodeError
        end
      else if (0xF0 <=? b0) && (b0 <=? 0xF4) then
        match t0 with
        | b1 :: b2 :: b3 :: t3 =>
            if ((if b0 =? 0xF0 then 0x90 else 0x80) <=? b1)
               && (b1 <=? (if b0 =? 0xF4 then 0x8F else 0xBF))
               && is_cont b2 && is_cont b3
            then cons_ok ((b0 - 0xF0) * 262144 + (b1 - 0x80) * 4096
                          + (b2 - 0x80) * 64 + (b3 - 0x80))
                         (utf8_decode t3)
            else Raise UnicodeDecodeError
        | _ => Raise UnicodeDecodeError
        end
      else Raise UnicodeDecodeError
  end.

(** [b.decode("utf-8")] *)
Definition decode_utf8 (b : bytes) : result str := utf8_decode (map byte_val b).

Definition utf8_encode_char (c : Z) : list Z :=
  if c <? 0x80 then [c]
  else if c <? 0x800 then [0xC0 + c / 64; 0x80 + c mod 64]
  else if c <? 0x10000 then
    [0xE0 + c / 4096; 0x80 + (c / 64) mod 64; 0x80 + c mod 64]
  else
    [0xF0 + c / 262144; 0x80 + (c / 4096) mod 64; 0x80 + (c / 64) mod 64;
     0x80 + c mod 64].

(** [s.encode("utf-8")].  The only strings the program encodes are outputs
    of [json.dumps], which with its default [ensure_ascii=True] are ASCII;
    on those the encoding is one byte per character. *)
Definition encode_utf8 (s : str) : bytes :=
  map byte_of_Z (flat_map utf8_encode_char s).

(** ** Records, log events, requests and the world *)

#[local] Set Warnings "-register-all".

(** The Python values the program moves around: what [json.loads] and
    [xmltodict.parse] return and what [handle_flat_text] builds.  A dict is
    the list of its items in insertion order; a float is carried by its
    [repr]. *)
Inductive json : Type :=
| JNone
| JBool (b : bool)
| JInt (n : Z)
| JFloat (repr : str)
| JStr (s : str)
| JList (items : list json)
| JDict (items : list (str * json)).

(** One constructor per [logging] call of the source. *)
Inductive event : Type :=
| Info_blob_processed (name : str) (length : Z)
| Error_no_valid_data
| Error_processing_blob (e : exn)
| Error_unsupported_file_type (file_name : str)
| Error_processing_blob_content (file_name : str) (e : exn)
| Error_parsing_NDJSON (e : exn)
| Error_parsing_JSON (e : exn)
| Error_parsing_XML (e : exn)
| Error_compressed_too_large
| Info_observe_response (status_code : Z) (text : str)
| Error_sending_batch (e : exn).

Definition is_error (ev : event) : bool :=
  match ev with
  | Info_blob_processed _ _ | Info_observe_response _ _ => false
  | _ => true
  end.

(** The arguments of one [requests.post] call.  [url] is [None] when the
    endpoint variable is not set. *)
Record request : Type := mk_request {
  url : option str;
  headers : list (str * str);
  data : bytes
}.

Record response : Type := mk_response {
  status_code : Z;
  text : str
}.

(** What an invocation leaves behind: the log, the [requests.post] calls
    made, and (as a trace, not program state) the batches [send_batch] was
    called with, all oldest first. *)
Record World : Type := mk_World {
  log : list event;
  posts : list request;
  handed : list (list json)
}.

Definition empty_world : World := mk_World [] [] [].

(** The blob the trigger passes in: [myblob.name], [myblob.length] and the
    outcome of [myblob.read()]. *)
Record InputStream : Type := mk_InputStream {
  name : str;
  length : Z;
  read : result bytes
}.

(** ** The monad of the program *)

Definition M (A : Type) : Type := World -> result A * World.

Definition ret {A : Type} (a : A) : M A := fun w => (Ok a, w).

Definition bind {A B : Type} (m : M A) (k : A -> M B) : M B :=
  fun w =>
    match m w with
    | (Ok a, w') => k a w'
    | (Raise e, w') => (Raise e, w')
    end.

(** A fallible pure computation, run in the program. *)
Definition lift {A : Type} (r : result A) : M A := fun w => (r, w).

(** [try: body  except <catch> as e: handler e].  An exception that [catch]
    does not match propagates; what [body] did before raising stays done. *)
Definition try_except {A : Type} (body : M A) (catch : exn -> bool)
    (handler : exn -> M A) : M A :=
  fun w =>
    match body w with
    | (Ok a, w') => (Ok a, w')
    | (Raise e, w') => if catch e then handler e w' else (Raise e, w')
    end.

Declare Scope prog_scope.
Delimit Scope prog_scope with prog.
Notation "x <- m ;; k" := (bind m (fun x => k))
  (at level 61, m at next level, right associativity) : prog_scope.
Notation "m ;; k" := (bind m (fun _ => k))
  (at level 61, right associativity) : prog_scope.
Local Open Scope prog_scope.

Definition logging (ev : event) : M unit :=
  fun w => (Ok tt, mk_World (log w ++ [ev]) (posts w) (handed w)).

(** The list comprehension [[f(x) for x in xs]]: left to right, the first
    exception ends it. *)
Fixpoint list_comp {A B : Type} (f : A -> result B) (xs : list A)
    : result (list B) :=
  match xs with
  | [] => Ok []
  | x :: xs' =>
      match f x with
      | Raise e => Raise e
      | Ok y =>
          match list_comp f xs' with
          | Raise e => Raise e
          | Ok ys => Ok (y :: ys)
          end
      end
  end.

(** [[g(i, x) for i, x in enumerate(xs)]], counting from [i]. *)
Fixpoint enumerate_from {A B : Type} (i : Z) (g : Z -> A -> B) (xs : list A)
    : list B :=
  match xs with
  | [] => []
  | x :: xs' => g i x :: enumerate_from (i + 1) g xs'
  end.

(** [f"{x}"] of a value that is a string or [None]. *)
Definition format_opt (x : option str) : str :=
  match x with
  | Some s => s
  | None => lit "None"
  end.

(** ** The program *)

Definition MAX_UNCOMPRESSED_SIZE : Z := 4 * 1024 * 1024.
Definition MAX_COMPRESSED_SIZE : Z := 10 * 1024 * 1024.
Arguments MAX_UNCOMPRESSED_SIZE : simpl never.
Arguments MAX_COMPRESSED_SIZE : simpl never.

Section Program.

(** [json.loads] on a string: the value, or the exception raised. *)
Variable json_loads : str -> result json.
(** [json.dumps] with its defaults. *)
Variable json_dumps : json -> str.
(** [xmltodict.parse] *)
Variable xmltodict_parse : str -> result json.
(** [gzip.compress] *)
Variable gzip_compress : bytes -> bytes.
(** [requests.post]: its outcome for a request, given the requests made
    before it. *)
Variable requests_post : list request -> request -> result response.
(** [os.getenv] *)
Variable os_getenv : string -> option str.

Definition handle_ndjson (blob_content : bytes) : M (option (list json)) :=
  try_except
    (decoded <- lift (decode_utf8 blob_content) ;;
     let log_lines := splitlines (strip decoded) in
     records <- lift (list_comp json_loads log_lines) ;;
     ret (Some records))
    is_JSONDecodeError
    (fun e => logging (Error_parsing_NDJSON e) ;; ret None).

Definition handle_json (blob_content : bytes) : M (option (list json)) :=
  try_except
    (decoded <- lift (decode_utf8 blob_content) ;;
     let log_lines := splitlines (strip decoded) in
     records <- lift (list_comp json_loads log_lines) ;;
     ret (Some records))
    is_JSONDecodeError
    (fun _ =>
       try_except
         (decoded <- lift (decode_utf8 blob_content) ;;
          single_object <- lift (json_loads decoded) ;;
          ret (Some [single_object]))
         is_JSONDecodeError
         (fun e => logging (Error_parsing_JSON e) ;; ret None)).

Definition line_record (i : Z) (line : str) : json :=
  JDict [(lit "line_number", JInt (i + 1)); (lit "content", JStr line)].

Definition handle_flat_text (blob_content : bytes)
    : M (option (list json)) :=
  decoded <- lift (decode_utf8 blob_content) ;;
  let lines := splitlines (strip decoded) in
  ret (Some (enumerate_from 0 line_record lines)).

Definition handle_xml (blob_content : bytes) : M (option (list json)) :=
  try_except
    (decoded <- lift (decode_utf8 blob_content) ;;
     xml_dict <- lift (xmltodict_parse decoded) ;;
     ret (Some [xml_dict]))
    is_Exception
    (fun e => logging (Error_parsing_XML e) ;; ret None).

Definition process_blob_content (blob_content : bytes) (file_name : str)
    : M (option (list json)) :=
  try_except
    (if endswith file_name (lit ".ndjson") then handle_ndjson blob_content
     else if endswith file_name (lit ".json") then handle_json blob_content
     else if endswith file_name (lit ".txt")
          then handle_flat_text blob_content
     else if endswith file_name (lit ".xml") then handle_xml blob_content
     else logging (Error_unsupported_file_type file_name) ;; ret None)
    is_Exception
    (fun e => logging (Error_processing_blob_content file_name e) ;;
              ret None).

(** The call itself: it is recorded in [posts] whether it then returns a
    response or raises. *)
Definition post (endpoint : option str) (hdrs : list (str * str))
    (body : bytes) : M response :=
  fun w =>
    let rq := mk_request endpoint hdrs body in
    (requests_post (posts w) rq,
     mk_World (log w) (posts w ++ [rq]) (handed w)).

(** Trace only: notes the batch [send_batch] was called with. *)
Definition enter_send_batch (batch : list json) : M unit :=
  fun w => (Ok tt, mk_World (log w) (posts w) (handed w ++ [batch])).

Definition send_batch (batch : list json) (endpoint token : option str)
    : M unit :=
  enter_send_batch batch ;;
  let ndjson_data := join newline (map json_dumps batch) in
  let gzipped_data := gzip_compress (encode_utf8 ndjson_data) in
  if len gzipped_data >? MAX_COMPRESSED_SIZE then
    logging Error_compressed_too_large ;; ret tt
  else
    let hdrs :=
      [(lit "Authorization", lit "Bearer " ++ format_opt token);
       (lit "Content-type", lit "application/x-ndjson");
       (lit "Content-encoding", lit "gzip")] in
    try_except
      (resp <- post endpoint hdrs gzipped_data ;;
       logging (Info_observe_response (status_code resp) (text resp)))
      is_Exception
      (fun e => logging (Error_sending_batch e)).

(** The [for] loop of [batch_and_send_to_observe], with its two local
    variables; it returns the batch left when the data is used up. *)
Fixpoint batch_loop (data : list json) (batch : list json)
    (current_uncompressed_size : Z) (endpoint token : option str)
    : M (list json) :=
  match data with
  | [] => ret batch
  | observation :: rest =>
      let serialized := json_dumps observation in
      let size := len (encode_utf8 serialized) in
      if current_uncompressed_size + size >? MAX_UNCOMPRESSED_SIZE then
        send_batch batch endpoint token ;;
        batch_loop rest ([] ++ [observation]) (0 + size) endpoint token
      else
        batch_loop rest (batch ++ [observation])
                   (current_uncompressed_size + size) endpoint token
  end.

Definition batch_and_send_to_observe (data : list json)
    (endpoint token : option str) : M unit :=
  batch <- batch_loop data [] 0 endpoint token ;;
  match batch with
  | [] => ret tt
  | _ :: _ => send_batch batch endpoint token
  end.

Definition blob_trigger (myblob : InputStream) : M unit :=
  logging (Info_blob_processed (name myblob) (length myblob)) ;;
  let OBSERVE_HTTP_ENDPOINT := os_getenv "OBSERVE_HTTP_ENDPOINT" in
  let OBSERVE_API_TOKEN := os_getenv "OBSERVE_API_TOKEN" in
  try_except
    (blob_data <- lift (read myblob) ;;
     formatted_data <- process_blob_content blob_data (name myblob) ;;
     match formatted_data with
     | None | Some [] => logging Error_no_valid_data ;; ret tt
     | Some (first :: others) =>
         batch_and_send_to_observe (first :: others) OBSERVE_HTTP_ENDPOINT
                                   OBSERVE_API_TOKEN
     end)
    is_Exception
    (fun e => logging (Error_processing_blob e)).

End Program.

(** A list of [n] copies of [x], for inputs too long to write out. *)
Definition replicate {A : Type} (n : Z) (x : A) : list A :=
  repeat x (Z.to_nat n).

(** ** Reference collaborators

    One executable choice for the parameters of [Program], to run the
    program on concrete inputs: a serializer that follows [json.dumps] with
    its defaults, a decoder that follows [json.loads] on JSON without
    fractional or exponent numbers, and stand-ins for the compressor, the
    transport, the XML parser and the environment. *)
Module Ref.

Definition hex_digit (d : Z) : Z := if d <? 10 then 0x30 + d else 0x61 + (d - 10).

(** [\uXXXX] *)
Definition u_escape (c : Z) : str :=
  [0x5C; 0x75; hex_digit (c / 4096 mod 16); hex_digit (c / 256 mod 16);
   hex_digit (c / 16 mod 16); hex_digit (c mod 16)].

Definition escape_char (c : Z) : str :=
  if c =? 0x22 then [0x5C; 0x22]
  else if c =? 0x5C then [0x5C; 0x5C]
  else if c =? 0x0A then [0x5C; 0x6E]
  else if c =? 0x0D then [0x5C; 0x72]
  else if c =? 0x09 then [0x5C; 0x74]
  else if c =? 0x08 then [0x5C; 0x62]
  else if c =? 0x0C then [0x5C; 0x66]
  else if (0x20 <=? c) && (c <=? 0x7E) then [c]
  else if c <? 0x10000 then u_escape c
  else u_escape (0xD800 + (c - 0x10000) / 1024)
       ++ u_escape (0xDC00 + (c - 0x10000) mod 1024).

(** [json.encoder.encode_basestring_ascii] *)
Definition encode_basestring_ascii (s : str) : str :=
  [0x22] ++ flat_map escape_char s ++ [0x22].

Fixpoint json_dumps (v : json) : str :=
  match v with
  | JNone => lit "null"
  | JBool true => lit "true"
  | JBool false => lit "false"
  | JInt n => lit (DecimalString.NilZero.string_of_int (Z.to_int n))
  | JFloat r => r
  | JStr s => encode_basestring_ascii s
  | JList items =>
      lit "[" ++ join (lit ", ") (map json_dumps items) ++ lit "]"
  | JDict items =>
      lit "{"
      ++ join (lit ", ")
           (map (fun kv =>
                   match kv with
                   | (k, x) =>
                       encode_basestring_ascii k ++ lit ": " ++ json_dumps x
                   end) items)
      ++ lit "}"
  end.

Definition is_ws (c : Z) : bool :=
  (c =? 0x20) || (c =? 0x09) || (c =? 0x0A) || (c =? 0x0D).

Fixpoint skip_ws (s : str) : str :=
  match s with
  | [] => []
  | c :: r => if is_ws c then skip_ws r else s
  end.

Definition is_digit (c : Z) : bool := (0x30 <=? c) && (c <=? 0x39).

Fixpoint scan_digits (acc : Z) (s : str) : Z * str :=
  match s with
  | [] => (acc, [])
  | c :: r => if is_digit c then scan_digits (acc * 10 + (c - 0x30)) r
              else (acc, s)
  end.

Definition hexval (c : Z) : option Z :=
  if is_digit c then Some (c - 0x30)
  else if (0x61 <=? c) && (c <=? 0x66) then Some (c - 0x61 + 10)
  else if (0x41 <=? c) && (c <=? 0x46) then Some (c - 0x41 + 10)
  else None.

Definition scan_hex4 (s : str) : option (Z * str) :=
  match s with
  | a :: b :: c :: d :: r =>
      match hexval a, hexval b, hexval c, hexval d with
      | Some x, Some y, Some z, Some t =>
          Some (((x * 16 + y) * 16 + z) * 16 + t, r)
      | _, _, _, _ => None
      end
  | _ => None
  end.

Definition simple_escape (e : Z) : option Z :=
  if e =? 0x22 then Some 0x22
  else if e =? 0x5C then Some 0x5C
  else if e =? 0x2F then Some 0x2F
  else if e =? 0x62 then Some 0x08
  else if e =? 0x66 then Some 0x0C
  else if e =? 0x6E then Some 0x0A
  else if e =? 0x72 then Some 0x0D
  else if e =? 0x74 then Some 0x09
  else None.

(** The low half of a surrogate pair written [\uXXXX] at the head of [s]. *)
Definition scan_low_surrogate (s : str) : option (Z * str) :=
  match s with
  | b :: u :: r =>
      if (b =? 0x5C) && (u =? 0x75) then
        match scan_hex4 r with
        | Some (lo, r') =>
            if (0xDC00 <=? lo) && (lo <=? 0xDFFF) then Some (lo, r') else None
        | None => None
        end
      else None
  | _ => None
  end.

(** The body of a string literal, after its opening quote: the string and
    what follows the closing quote.  Raw control characters and unknown
    escapes are errors. *)
Fixpoint scanstring (fuel : nat) (acc : str) (s : str) : option (str * str) :=
  match fuel with
  | O => None
  | S fuel' =>
      match s with
      | [] => None
      | c :: r =>
          if c =? 0x22 then Some (acc, r)
          else if c =? 0x5C then
            match r with
            | [] => None
            | e :: r1 =>
                if e =? 0x75 then
                  match scan_hex4 r1 with
                  | None => None
                  | Some (hi, r2) =>
                      if (0xD800 <=? hi) && (hi <=? 0xDBFF) then
                        match scan_low_surrogate r2 with
                        | Some (lo, r3) =>
                            scanstring fuel'
                              (acc ++ [0x10000 + (hi - 0xD800) * 1024
                                       + (lo - 0xDC00)]) r3
                        | None => scanstring fuel' (acc ++ [hi]) r2
                        end
                      else scanstring fuel' (acc ++ [hi]) r2
                  end
                else
                  match simple_escape e with
                  | Some x => scanstring fuel' (acc ++ [x]) r1
                  | None => None
                  end
            end
          else if c <? 0x20 then None
          else scanstring fuel' (acc ++ [c]) r
      end
  end.

(** [d[k] = v] on a dict kept as its items in insertion order. *)
Fixpoint dict_set (d : list (str * json)) (k : str) (v : json)
    : list (str * json) :=
  match d with
  | [] => [(k, v)]
  | (k', v') :: d' =>
      if str_eqb k' k then (k', v) :: d' else (k', v') :: dict_set d' k v
  end.

Definition unsupported_float : exn := Exception_ "float literal".

(** A number at the head of [s]: an integer literal; a fraction or an
    exponent after it is outside this decoder. *)
Definition scan_number (s : str) : result (json * str) :=
  let '(negative, body) :=
    match s with
    | c :: r => if c =? 0x2D then (true, r) else (false, s)
    | [] => (false, s)
    end in
  match body with
  | [] => Raise JSONDecodeError
  | d :: r =>
      if is_digit d then
        let '(n, r') := if d =? 0x30 then (0, r) else scan_digits 0 body in
        let value := if negative then - n else n in
        match r' with
        | p :: q :: _ =>
            if ((p =? 0x2E) && is_digit q)
               || (((p =? 0x65) || (p =? 0x45))
                   && (is_digit q || (q =? 0x2B) || (q =? 0x2D)))
            then Raise unsupported_float
            else Ok (JInt value, r')
        | _ => Ok (JInt value, r')
        end
      else Raise JSONDecodeError
  end.

Definition quoted (s : str) : option (str * str) :=
  match s with
  | c :: r => if c =? 0x22 then scanstring (S (List.length r)) [] r else None
  | [] => None
  end.

Fixpoint scan_value (fuel : nat) (s : str) : result (json * str) :=
  match fuel with
  | O => Raise JSONDecodeError
  | S fuel' =>
      match s with
      | [] => Raise JSONDecodeError
      | c :: r =>
          if c =? 0x22 then
            match quoted s with
            | Some (x, r') => Ok (JStr x, r')
            | None => Raise JSONDecodeError
            end
          else if c =? 0x7B then
            match skip_ws r with
            | c1 :: r1 =>
                if c1 =? 0x7D then Ok (JDict [], r1)
                else scan_members fuel' [] (c1 :: r1)
            | [] => Raise JSONDecodeError
            end
          else if c =? 0x5B then
            match skip_ws r with
            | c1 :: r1 =>
                if c1 =? 0x5D then Ok (JList [], r1)
                else scan_items fuel' [] (c1 :: r1)
            | [] => Raise JSONDecodeError
            end
          else if startswith s (lit "null") then Ok (JNone, skipn 4 s)
          else if startswith s (lit "true") then Ok (JBool true, skipn 4 s)
          else if startswith s (lit "false") then Ok (JBool false, skipn 5 s)
          else if startswith s (lit "NaN") || startswith s (lit "Infinity")
                  || startswith s (lit "-Infinity")
          then Raise unsupported_float
          else scan_number s
      end
  end
with scan_items (fuel : nat) (acc : list json) (s : str)
    : result (json * str) :=
  match fuel with
  | O => Raise JSONDecodeError
  | S fuel' =>
      match scan_value fuel' s with
      | Raise e => Raise e
      | Ok (v, r) =>
          match skip_ws r with
          | c :: r1 =>
              if c =? 0x5D then Ok (JList (acc ++ [v]), r1)
              else if c =? 0x2C
                   then scan_items fuel' (acc ++ [v]) (skip_ws r1)
              else Raise JSONDecodeError
          | [] => Raise JSONDecodeError
          end
      end
  end
with scan_members (fuel : nat) (acc : list (str * json)) (s : str)
    : result (json * str) :=
  match fuel with
  | O => Raise JSONDecodeError
  | S fuel' =>
      match quoted s with
      | None => Raise JSONDecodeError
      | Some (k, r) =>
          match skip_ws r with
          | c :: r1 =>
              if c =? 0x3A then
                match scan_value fuel' (skip_ws r1) with
                | Raise e => Raise e
                | Ok (v, r2) =>
                    match skip_ws r2 with
                    | c2 :: r3 =>
                        if c2 =? 0x7D then Ok (JDict (dict_set acc k v), r3)
                        else if c2 =? 0x2C
                             then scan_members fuel' (dict_set acc k v)
                                               (skip_ws r3)
                        else Raise JSONDecodeError
                    | [] => Raise JSONDecodeError
                    end
                end
              else Raise JSONDecodeError
          | [] => Raise JSONDecodeError
          end
      end
  end.

(** One JSON document, white space allowed around it, nothing after it. *)
Definition json_loads (s : str) : result json :=
  match scan_value (2 * List.length s + 2) (skip_ws s) with
  | Raise e => Raise e
  | Ok (v, r) =>
      match skip_ws r with
      | [] => Ok v
      | _ :: _ => Raise JSONDecodeError
      end
  end.

(** Stand-in compressor: the payload unchanged.  The program only measures
    the compressed bytes and passes them on. *)
Definition gzip_compress (b : bytes) : bytes := b.

(** Stand-in transport: every request is answered 200 with an empty body. *)
Definition requests_post (_ : list request) (_ : request) : result response :=
  Ok (mk_response 200 []).

(** Stand-in for [xmltodict.parse], which no input below reaches. *)
Definition xmltodict_parse (_ : str) : result json :=
  Raise (Exception_ "xmltodict.parse").

(** An environment in which only the endpoint is set. *)
Definition os_getenv_no_token (var : string) : option str :=
  if String.eqb var "OBSERVE_HTTP_ENDPOINT"
  then Some (lit "https://collect.example/v1/http")
  else None.

(** A record whose serialization is longer than [MAX_UNCOMPRESSED_SIZE]:
    a string of that many letters [a] and one more. *)
Definition oversized : json :=
  JStr (replicate (MAX_UNCOMPRESSED_SIZE + 1) 0x61).

(** A record whose serialization is longer than [MAX_COMPRESSED_SIZE]; the
    stand-in compressor stores it as it is, so the payload of a batch that
    holds it is over the compressed ceiling. *)
Definition huge : json :=
  JStr (replicate (MAX_COMPRESSED_SIZE + 1) 0x61).

End Ref.

(** ** The claims about the handlers, as worded

    For the two claims that the code does not meet, the records the claim
    describes, to set against what the handlers return. *)

Definition is_empty (s : str) : bool :=
  match s with
  | [] => true
  | _ :: _ => false
  end.

(** The [.ndjson] claim: trailing whitespace stripped, the text split into
    lines, the empty lines skipped, each other line parsed. *)
Definition ndjson_as_claimed (json_loads : str -> result json)
    (decoded : str) : result (list json) :=
  list_comp json_loads
    (filter (fun line => negb (is_empty line)) (splitlines (rstrip decoded))).

(** The [.txt] claim: only trailing whitespace stripped, the text split
    into lines, one numbered record per line. *)
Definition flat_text_as_claimed (decoded : str) : list json :=
  enumerate_from 0 line_record (splitlines (rstrip decoded)).

(** ** Measures used in the statements *)

(** [len(json.dumps(r).encode("utf-8"))], the size the batcher adds up. *)
Definition serialized_size (json_dumps : json -> str) (r : json) : Z :=
  len (encode_utf8 (json_dumps r)).

(** The sum of the serialized sizes of the records of a batch. *)
Definition batch_size (json_dumps : json -> str) (batch : list json) : Z :=
  fold_right (fun r total => serialized_size json_dumps r + total) 0 batch.

(** A batch within the ceiling, or one record that alone exceeds it. *)
Definition within_ceiling (json_dumps : json -> str) (batch : list json)
    : Prop :=
  batch_size json_dumps batch <= MAX_UNCOMPRESSED_SIZE
  \/ exists r, batch = [r]
               /\ serialized_size json_dumps r > MAX_UNCOMPRESSED_SIZE.

(** The flushes of [batch_loop] as a function of the data alone: the batches
    closed inside the loop, and the batch it ends with.  Lemma
    [batch_loop_flushed] ties it to the program. *)
Fixpoint flushed (json_dumps : json -> str) (data batch : list json)
    (current : Z) : list (list json) * list json :=
  match data with
  | [] => ([], batch)
  | observation :: rest =>
      let size := serialized_size json_dumps observation in
      if current + size >? MAX_UNCOMPRESSED_SIZE then
        let '(closed, last) := flushed json_dumps rest [observation] size in
        (batch :: closed, last)
      else flushed json_dumps rest (batch ++ [observation]) (current + size)
  end.

(** The final [if batch:] of [batch_and_send_to_observe]. *)
Definition final_flush (batch : list json) : list (list json) :=
  match batch with
  | [] => []
  | _ :: _ => [batch]
  end.

Definition all_flushed (json_dumps : json -> str) (data : list json)
    : list (list json) :=
  let '(closed, last) := flushed json_dumps data [] 0 in
  closed ++ final_flush last.

(** The wire payload of a batch: its records serialized, joined by
    newlines, encoded and compressed. *)
Definition envelope (json_dumps : json -> str)
    (gzip_compress : bytes -> bytes) (batch : list json) : bytes :=
  gzip_compress (encode_utf8 (join newline (map json_dumps batch))).

(** The headers [send_batch] builds from the token. *)
Definition observe_headers (token : option str) : list (str * str) :=
  [(lit "Authorization", lit "Bearer " ++ format_opt token);
   (lit "Content-type", lit "application/x-ndjson");
   (lit "Content-encoding", lit "gzip")].

(** The log entry for the outcome of a [requests.post] call. *)
Definition post_outcome (r : result response) : event :=
  match r with
  | Ok resp => Info_observe_response (status_code resp) (text resp)
  | Raise e => Error_sending_batch e
  end.

(** The world after [send_batch] has been called on each batch of [bs] in
    turn ([send_batch] never raises, lemma [send_batch_spec]). *)
Fixpoint send_all (json_dumps : json -> str) (gzip_compress : bytes -> bytes)
    (requests_post : list request -> request -> result response)
    (bs : list (list json)) (endpoint token : option str) (w : World)
    : World :=
  match bs with
  | [] => w
  | b :: bs' =>
      send_all json_dumps gzip_compress requests_post bs' endpoint token
        (snd (send_batch json_dumps gzip_compress requests_post b endpoint
                         token w))
  end.

(** A request sent to [endpoint] with the headers built from [token]. *)
Definition addressed (endpoint token : option str) (rq : request) : Prop :=
  url rq = endpoint /\ headers rq = observe_headers token.

(** The world [w] with one more log entry. *)
Definition logged (w : World) (ev : event) : World :=
  mk_World (log w ++ [ev]) (posts w) (handed w).

(** The bodies of the POSTs made for the batches [bs]: the envelopes that
    are within the compressed ceiling. *)
Definition posted_bodies (json_dumps : json -> str)
    (gzip_compress : bytes -> bytes) (bs : list (list json)) : list bytes :=
  filter (fun gz => negb (len gz >? MAX_COMPRESSED_SIZE))
         (map (envelope json_dumps gzip_compress) bs).

(** A computation that only logs: it leaves the POSTs and the trace alone
    and adds entries to the log, whether it returns or raises. *)
Definition quiet {A : Type} (m : M A) : Prop :=
  forall w, exists (res : result A) (evs : list event),
    m w = (res, mk_World (log w ++ evs) (posts w) (handed w)).


(** No batch of [bs] but the last could have taken the first record of the
    batch after it. *)
Definition closed_when_full (json_dumps : json -> str)
    (bs : list (list json)) : Prop :=
  forall bs1 b1 b2 bs2,
    bs = bs1 ++ b1 :: b2 :: bs2 ->
    exists r rest,
      b2 = r :: rest
      /\ batch_size json_dumps b1 + serialized_size json_dumps r
         > MAX_UNCOMPRESSED_SIZE.

(** A line without line-break characters. *)
Definition no_linebreak (line : str) : bool :=
  forallb (fun c => negb (is_linebreak c)) line.

(** What a handler does: it returns records and logs nothing, or it logs
    one error and returns [None], or it raises and logs nothing. *)
Definition handler_outcome (h : M (option (list json))) : Prop :=
  forall w,
    (exists records, h w = (Ok (Some records), w))
    \/ (exists ev, is_error ev = true /\ h w = (Ok None, logged w ev))
    \/ (exists e, h w = (Raise e, w)).

(** ** Concrete blobs *)

(** ["1\n\n2"]: two valid lines around an empty one. *)
Definition blob_with_blank_line : bytes := [x31; x0a; x0a; x32].

(** ["1\n2\n"] *)
Definition blob_two_lines : bytes := [x31; x0a; x32; x0a].

(** The object [{"a": 1}] written over three lines. *)
Definition blob_object_on_three_lines : bytes :=
  [x7b; x0a; x22; x61; x22; x3a; x20; x31; x0a; x7d].

(** ["\n a\n\nb \n"]: a blank line and a space in front, a blank line
    inside, whitespace at the end. *)
Definition blob_text : bytes := [x0a; x20; x61; x0a; x0a; x62; x20; x0a].

(** A [.txt] blob of one line, ["x"]. *)
Definition blob_one_line : InputStream :=
  mk_InputStream (lit "a.txt") 1 (Ok [x78]).

(** A blob named [a.csv] and one named [A.TXT], both holding [a,b]. *)
Definition blob_csv : InputStream :=
  mk_InputStream (lit "a.csv") 3 (Ok [x61; x2c; x62]).

Definition blob_upper_case_suffix : InputStream :=
  mk_InputStream (lit "A.TXT") 3 (Ok [x61; x2c; x62]).

(** A [.txt] blob holding a space and a line feed, and an empty [.json]
    blob. *)
Definition blob_blank_text : InputStream :=
  mk_InputStream (lit "blank.txt") 2 (Ok [x20; x0a]).

Definition blob_empty_json : InputStream :=
  mk_InputStream (lit "empty.json") 0 (Ok []).

(** A byte that is not UTF-8. *)
Definition blob_not_utf8 : bytes := [xff].

(** * Properties *)

Lemma len_nonneg {A : Type} (l : list A) : 0 <= len l.
Proof. unfold len. lia. Qed.

Lemma len_app {A : Type} (l1 l2 : list A) : len (l1 ++ l2) = len l1 + len l2.
Proof. unfold len. rewrite length_app. lia. Qed.

Lemma len_map {A B : Type} (f : A -> B) (l : list A) : len (map f l) = len l.
Proof. unfold len. now rewrite length_map. Qed.

Section Batcher.

Variable json_dumps : json -> str.
Variable gzip_compress : bytes -> bytes.
Variable requests_post : list request -> request -> result response.

Lemma size_nonneg (r : json) : 0 <= serialized_size json_dumps r.
Proof. apply len_nonneg. Qed.

(** What one call of [send_batch] does: it returns normally; it is noted in
    the trace; an envelope over the ceiling is logged and not posted; any
    other envelope is posted once and the outcome of the call is logged. *)
Lemma send_batch_spec (batch : list json) (endpoint token : option str)
    (w : World) :
  let gz := envelope json_dumps gzip_compress batch in
  let rq := mk_request endpoint (observe_headers token) gz in
  send_batch json_dumps gzip_compress requests_post batch endpoint token w
  = (Ok tt,
     if len gz >? MAX_COMPRESSED_SIZE then
       mk_World (log w ++ [Error_compressed_too_large]) (posts w)
                (handed w ++ [batch])
     else
       mk_World (log w ++ [post_outcome (requests_post (posts w) rq)])
                (posts w ++ [rq]) (handed w ++ [batch])).
Proof.
  unfold send_batch, bind, enter_send_batch, try_except, post, logging, ret,
    envelope, observe_headers, post_outcome.
  cbn.
  match goal with
  | |- context [?x >? MAX_COMPRESSED_SIZE] =>
      destruct (x >? MAX_COMPRESSED_SIZE)
  end; cbn.
  - reflexivity.
  - destruct (requests_post _ _); cbn; reflexivity.
Qed.

(** The batches [bs] sent one after the other. *)
Lemma send_all_handed (bs : list (list json)) :
  forall (endpoint token : option str) (w : World),
    handed (send_all json_dumps gzip_compress requests_post bs endpoint token w)
    = handed w ++ bs.
Proof.
  induction bs as [|b bs IH]; intros endpoint token w; cbn [send_all].
  - now rewrite app_nil_r.
  - rewrite IH, send_batch_spec. cbv zeta.
    destruct (len _ >? MAX_COMPRESSED_SIZE); cbn [snd handed];
      now rewrite <- app_assoc.
Qed.

Lemma send_all_app (bs1 bs2 : list (list json)) :
  forall (endpoint token : option str) (w : World),
    send_all json_dumps gzip_compress requests_post (bs1 ++ bs2) endpoint
             token w
    = send_all json_dumps gzip_compress requests_post bs2 endpoint token
        (send_all json_dumps gzip_compress requests_post bs1 endpoint token w).
Proof.
  induction bs1 as [|b bs1 IH]; intros endpoint token w; cbn [send_all app].
  - reflexivity.
  - apply IH.
Qed.

(** The loop returns the batch it ends with, having sent its flushes. *)
Lemma batch_loop_flushed (data : list json) :
  forall (batch : list json) (current : Z) (endpoint token : option str)
         (w : World),
    batch_loop json_dumps gzip_compress requests_post data batch current
               endpoint token w
    = (Ok (snd (flushed json_dumps data batch current)),
       send_all json_dumps gzip_compress requests_post
                (fst (flushed json_dumps data batch current)) endpoint token w).
Proof.
  induction data as [|observation rest IH]; intros batch current endpoint token w.
  - reflexivity.
  - cbn [batch_loop flushed]. fold (serialized_size json_dumps observation).
    destruct (current + serialized_size json_dumps observation
              >? MAX_UNCOMPRESSED_SIZE).
    + unfold bind at 1. rewrite send_batch_spec. cbv zeta.
      cbn [app].
      replace (0 + serialized_size json_dumps observation)
        with (serialized_size json_dumps observation) by lia.
      rewrite IH.
      destruct (flushed json_dumps rest [observation] _) as [closed last].
      cbn [fst snd send_all]. rewrite send_batch_spec. reflexivity.
    + apply IH.
Qed.

(** The batcher always returns normally; what it leaves behind is what
    sending the batches of [all_flushed], in order, leaves behind. *)
Lemma batcher_sends_all_flushed (data : list json)
    (endpoint token : option str) (w : World) :
  batch_and_send_to_observe json_dumps gzip_compress requests_post data
                            endpoint token w
  = (Ok tt,
     send_all json_dumps gzip_compress requests_post
              (all_flushed json_dumps data) endpoint token w).
Proof.
  unfold batch_and_send_to_observe, all_flushed, bind.
  rewrite batch_loop_flushed.
  destruct (flushed json_dumps data [] 0) as [closed last]. cbn [fst snd].
  rewrite send_all_app.
  destruct last as [|r last]; cbn [final_flush send_all ret].
  - reflexivity.
  - rewrite send_batch_spec. reflexivity.
Qed.

(** *** The flushes as a function of the data *)

Lemma flushed_concat (data : list json) :
  forall (batch : list json) (current : Z),
    List.concat (fst (flushed json_dumps data batch current))
    ++ snd (flushed json_dumps data batch current)
    = batch ++ data.
Proof.
  induction data as [|observation rest IH]; intros batch current.
  - cbn. now rewrite app_nil_r.
  - cbn [flushed].
    destruct (current + serialized_size json_dumps observation
              >? MAX_UNCOMPRESSED_SIZE).
    + specialize (IH [observation] (serialized_size json_dumps observation)).
      destruct (flushed json_dumps rest [observation] _) as [closed last].
      cbn in *. rewrite <- app_assoc, IH. reflexivity.
    + rewrite IH, <- app_assoc. reflexivity.
Qed.

Lemma concat_final_flush (batch : list json) :
  List.concat (final_flush batch) = batch.
Proof. destruct batch; cbn; [reflexivity | now rewrite app_nil_r]. Qed.

Lemma all_flushed_concat (data : list json) :
  List.concat (all_flushed json_dumps data) = data.
Proof.
  unfold all_flushed.
  pose proof (flushed_concat data [] 0) as H.
  destruct (flushed json_dumps data [] 0) as [closed last]. cbn in H.
  now rewrite concat_app, concat_final_flush.
Qed.

(** After an oversized record has been appended, the batch is that record
    alone and the next record, if any, closes it. *)
Lemma flushed_after_oversized (r : json) (rest : list json) :
  serialized_size json_dumps r > MAX_UNCOMPRESSED_SIZE ->
  exists after,
    fst (flushed json_dumps rest [r] (serialized_size json_dumps r))
    ++ final_flush
         (snd (flushed json_dumps rest [r] (serialized_size json_dumps r)))
    = [r] :: after
    /\ List.concat after = rest.
Proof.
  intros Hbig. destruct rest as [|r2 rest].
  - exists []. cbn. auto.
  - cbn [flushed].
    pose proof (size_nonneg r2) as Hr2.
    destruct (Z.gtb_spec (serialized_size json_dumps r
                          + serialized_size json_dumps r2)
                         MAX_UNCOMPRESSED_SIZE) as [_|Hle]; [|lia].
    pose proof (flushed_concat rest [r2] (serialized_size json_dumps r2)) as Hc.
    destruct (flushed json_dumps rest [r2] _) as [closed last]. cbn in *.
    exists (closed ++ final_flush last). split; [reflexivity|].
    now rewrite concat_app, concat_final_flush.
Qed.

(** Where an oversized record sits in the data, the flushes split: those of
    the records before it, the record alone, those of the records after. *)
Lemma flushed_oversized (before : list json) :
  forall (batch : list json) (current : Z) (r : json) (after : list json),
    0 <= current ->
    serialized_size json_dumps r > MAX_UNCOMPRESSED_SIZE ->
    exists bs1 bs2,
      fst (flushed json_dumps (before ++ r :: after) batch current)
      ++ final_flush
           (snd (flushed json_dumps (before ++ r :: after) batch current))
      = bs1 ++ [r] :: bs2
      /\ List.concat bs1 = batch ++ before
      /\ List.concat bs2 = after.
Proof.
  induction before as [|x before IH]; intros batch current r after Hcur Hbig.
  - cbn [app flushed].
    destruct (Z.gtb_spec (current + serialized_size json_dumps r)
                         MAX_UNCOMPRESSED_SIZE) as [_|Hle]; [|lia].
    destruct (flushed_after_oversized r after Hbig) as (bs2 & Hfl & Hc2).
    destruct (flushed json_dumps after [r] _) as [closed last]. cbn in *.
    exists [batch], bs2. cbn. rewrite Hfl, !app_nil_r. auto.
  - cbn [app flushed].
    pose proof (size_nonneg x) as Hx.
    destruct (current + serialized_size json_dumps x >? MAX_UNCOMPRESSED_SIZE).
    + destruct (IH [x] (serialized_size json_dumps x) r after Hx Hbig)
        as (bs1 & bs2 & Hfl & Hc1 & Hc2).
      destruct (flushed json_dumps (before ++ r :: after) [x] _)
        as [closed last]. cbn in *.
      exists (batch :: bs1), bs2. cbn. rewrite Hfl, Hc1. auto.
    + destruct (IH (batch ++ [x]) (current + serialized_size json_dumps x)
                   r after ltac:(lia) Hbig)
        as (bs1 & bs2 & Hfl & Hc1 & Hc2).
      exists bs1, bs2. rewrite Hfl, Hc1, <- app_assoc. auto.
Qed.

Lemma batch_size_app (b1 b2 : list json) :
  batch_size json_dumps (b1 ++ b2)
  = batch_size json_dumps b1 + batch_size json_dumps b2.
Proof.
  unfold batch_size.
  induction b1 as [|y b1 IHb]; cbn [fold_right app]; lia.
Qed.

(** The loop keeps: the accumulator is the size of the batch, and the batch
    is within the ceiling or a single oversized record. *)
Lemma flushed_within_ceiling (data : list json) :
  forall (batch : list json) (current : Z),
    current = batch_size json_dumps batch ->
    within_ceiling json_dumps batch ->
    Forall (within_ceiling json_dumps)
           (fst (flushed json_dumps data batch current))
    /\ within_ceiling json_dumps (snd (flushed json_dumps data batch current)).
Proof.
  induction data as [|observation rest IH]; intros batch current Hsum Hok.
  - cbn. auto.
  - cbn [flushed].
    destruct (Z.gtb_spec (current + serialized_size json_dumps observation)
                         MAX_UNCOMPRESSED_SIZE) as [Hgt|Hle].
    + assert (Hone : within_ceiling json_dumps [observation]).
      { unfold within_ceiling. cbn.
        destruct (Z_le_gt_dec (serialized_size json_dumps observation)
                              MAX_UNCOMPRESSED_SIZE);
          [left; lia | right; eauto]. }
      destruct (IH [observation] (serialized_size json_dumps observation))
        as [Hall Hlast]; [cbn; lia | exact Hone |].
      destruct (flushed json_dumps rest [observation] _) as [closed last].
      cbn in *. auto.
    + assert (Hsum' : current + serialized_size json_dumps observation
                      = batch_size json_dumps (batch ++ [observation])).
      { rewrite batch_size_app, Hsum. unfold batch_size. cbn [fold_right].
        lia. }
      apply IH; [exact Hsum'|]. left. lia.
Qed.

Lemma all_flushed_within_ceiling (data : list json) :
  Forall (within_ceiling json_dumps) (all_flushed json_dumps data).
Proof.
  unfold all_flushed.
  destruct (flushed_within_ceiling data [] 0) as [Hall Hlast].
  - reflexivity.
  - left. cbn. unfold MAX_UNCOMPRESSED_SIZE. lia.
  - destruct (flushed json_dumps data [] 0) as [closed last]. cbn in *.
    apply Forall_app. split; [exact Hall|].
    destruct last; cbn; auto.
Qed.

(** A batch is closed empty only in front of an oversized first record. *)
Lemma flushed_nonempty (data : list json) :
  forall (batch : list json) (current : Z),
    batch <> [] ->
    ~ In [] (fst (flushed json_dumps data batch current))
    /\ snd (flushed json_dumps data batch current) <> [].
Proof.
  induction data as [|observation rest IH]; intros batch current Hne.
  - cbn. auto.
  - cbn [flushed].
    destruct (current + serialized_size json_dumps observation
              >? MAX_UNCOMPRESSED_SIZE).
    + destruct (IH [observation] (serialized_size json_dumps observation))
        as [Hin Hlast]; [discriminate|].
      destruct (flushed json_dumps rest [observation] _) as [closed last].
      cbn in *. split; [|exact Hlast].
      intros [Heq|Hc]; [now apply Hne | now apply Hin].
    + apply IH. now destruct batch.
Qed.

Lemma empty_batch_iff_oversized_first (data : list json) :
  In [] (all_flushed json_dumps data)
  <-> exists r rest,
        data = r :: rest
        /\ serialized_size json_dumps r > MAX_UNCOMPRESSED_SIZE.
Proof.
  unfold all_flushed. destruct data as [|r rest].
  - cbn. split; [tauto | intros (r & rest & H & _); discriminate].
  - cbn [flushed].
    destruct (Z.gtb_spec (0 + serialized_size json_dumps r)
                         MAX_UNCOMPRESSED_SIZE) as [Hgt|Hle].
    + destruct (flushed json_dumps rest [r] _) as [closed last].
      split; [intros _; exists r, rest; split; [reflexivity|lia]
             | intros _; cbn; auto].
    + destruct (flushed_nonempty rest ([] ++ [r])
                  (0 + serialized_size json_dumps r)) as [Hin Hlast];
        [discriminate|].
      destruct (flushed json_dumps rest ([] ++ [r]) _) as [closed last].
      cbn [fst snd] in *. split.
      * intros H. apply in_app_or in H. destruct H as [H|H]; [now elim Hin|].
        destruct last; cbn in H; [tauto|].
        destruct H as [H|[]]. discriminate.
      * intros (r' & rest' & Heq & Hbig). injection Heq as -> ->. lia.
Qed.

(** What a run of batches leaves in the log and among the POSTs: one log
    entry per batch; every POST goes to the endpoint with the headers built
    from the token; a run that posts nothing logs only errors. *)
Lemma send_all_effects (bs : list (list json)) :
  forall (endpoint token : option str) (w : World),
    exists (evs : list event) (later : list request),
      log (send_all json_dumps gzip_compress requests_post bs endpoint token w)
      = log w ++ evs
      /\ posts (send_all json_dumps gzip_compress requests_post bs endpoint
                         token w)
         = posts w ++ later
      /\ Forall (addressed endpoint token) later
      /\ List.length evs = List.length bs
      /\ (later = [] -> Forall (fun ev => is_error ev = true) evs).
Proof.
  induction bs as [|b bs IH]; intros endpoint token w; cbn [send_all].
  - exists [], []. rewrite !app_nil_r. auto.
  - rewrite send_batch_spec. cbv zeta.
    destruct (len _ >? MAX_COMPRESSED_SIZE); cbn [snd];
      match goal with
      | |- context [send_all _ _ _ bs endpoint token ?w1] =>
          destruct (IH endpoint token w1) as (evs & later & Hl & Hp & Ha & Hn & He)
      end; cbn [log posts] in Hl, Hp.
    + exists (Error_compressed_too_large :: evs), later.
      rewrite Hl, Hp, <- app_assoc. cbn. repeat split; auto.
    + eexists (_ :: evs), (_ :: later).
      rewrite Hl, Hp, <- !app_assoc. cbn.
      repeat split; auto; [| discriminate].
      constructor; [split; reflexivity | exact Ha].
Qed.

(** C1.  Whatever the records, the batcher returns normally and the batches
    it hands to [send_batch], concatenated in the order they are handed
    over, are the input: each record is in exactly one batch, none is lost,
    repeated or moved.  A record whose own serialized size is above
    [MAX_UNCOMPRESSED_SIZE] is handed over as a batch of its own, between
    the batches of the records before it and those of the records after. *)
Theorem C1_batches_partition_the_stream (data : list json)
    (endpoint token : option str) (w : World) :
  exists (w' : World) (batches : list (list json)),
    batch_and_send_to_observe json_dumps gzip_compress requests_post data
                              endpoint token w
    = (Ok tt, w')
    /\ handed w' = handed w ++ batches
    /\ List.concat batches = data
    /\ (forall before r after,
           data = before ++ r :: after ->
           serialized_size json_dumps r > MAX_UNCOMPRESSED_SIZE ->
           exists bs1 bs2,
             batches = bs1 ++ [r] :: bs2
             /\ List.concat bs1 = before
             /\ List.concat bs2 = after).
Proof.
  eexists; exists (all_flushed json_dumps data).
  split; [apply batcher_sends_all_flushed|].
  split; [apply send_all_handed|].
  split; [apply all_flushed_concat|].
  intros before r after -> Hbig. unfold all_flushed.
  destruct (flushed_oversized before [] 0 r after ltac:(lia) Hbig)
    as (bs1 & bs2 & Hfl & Hc1 & Hc2).
  destruct (flushed json_dumps (before ++ r :: after) [] 0) as [closed last].
  cbn [fst snd] in Hfl. eauto.
Qed.

(** C2.  Every batch the batcher hands to [send_batch] has a summed
    serialized size of at most [MAX_UNCOMPRESSED_SIZE], unless it is a
    single record whose own size is above it. *)
Theorem C2_batches_within_ceiling (data : list json)
    (endpoint token : option str) (w : World) :
  exists (w' : World) (batches : list (list json)),
    batch_and_send_to_observe json_dumps gzip_compress requests_post data
                              endpoint token w
    = (Ok tt, w')
    /\ handed w' = handed w ++ batches
    /\ Forall (within_ceiling json_dumps) batches.
Proof.
  eexists; exists (all_flushed json_dumps data).
  split; [apply batcher_sends_all_flushed|].
  split; [apply send_all_handed | apply all_flushed_within_ceiling].
Qed.

(** C3, on the code.  When the first record of the stream is oversized, the
    flush inside the loop fires on the still empty batch: the first batch
    handed to [send_batch] is empty, and unless the compressed empty payload
    is itself over [MAX_COMPRESSED_SIZE] it is posted. *)
Theorem C3_oversized_first_record_sends_empty_batch (r : json)
    (rest : list json) (endpoint token : option str) (w : World) :
  serialized_size json_dumps r > MAX_UNCOMPRESSED_SIZE ->
  exists (w' : World) (batches : list (list json)),
    batch_and_send_to_observe json_dumps gzip_compress requests_post
                              (r :: rest) endpoint token w
    = (Ok tt, w')
    /\ handed w' = handed w ++ [] :: batches
    /\ (len (gzip_compress []) <= MAX_COMPRESSED_SIZE ->
        exists later,
          posts w'
          = posts w
            ++ mk_request endpoint (observe_headers token) (gzip_compress [])
               :: later).
Proof.
  intros Hbig. rewrite batcher_sends_all_flushed.
  unfold all_flushed. cbn [flushed].
  destruct (Z.gtb_spec (0 + serialized_size json_dumps r)
                       MAX_UNCOMPRESSED_SIZE) as [_|Hle]; [|lia].
  destruct (flushed json_dumps rest [r] _) as [closed last].
  eexists; exists (closed ++ final_flush last).
  split; [reflexivity|]. split; [apply send_all_handed|].
  intros Hsmall. cbn [app send_all]. rewrite send_batch_spec. cbv zeta.
  unfold envelope. cbn [map join encode_utf8 flat_map].
  destruct (Z.gtb_spec (len (gzip_compress [])) MAX_COMPRESSED_SIZE)
    as [Hgt|_]; [lia|]. cbn [snd].
  match goal with
  | |- context [send_all _ _ _ ?bs endpoint token ?w1] =>
      destruct (send_all_effects bs endpoint token w1)
        as (evs & later & _ & Hp & _)
  end.
  exists later. rewrite Hp. cbn [posts]. now rewrite <- app_assoc.
Qed.

(** C4.  [send_batch] returns normally and is not re-entered (the trace
    gains the batch once).  When the compressed payload is longer than
    [MAX_COMPRESSED_SIZE] no POST is made and the error is logged; otherwise
    exactly one POST is made, to the endpoint, with the compressed payload
    as its body, and its outcome is logged. *)
Theorem C4_send_batch_compressed_ceiling (batch : list json)
    (endpoint token : option str) (w : World) :
  let gz := envelope json_dumps gzip_compress batch in
  let rq := mk_request endpoint (observe_headers token) gz in
  exists w' : World,
    send_batch json_dumps gzip_compress requests_post batch endpoint token w
    = (Ok tt, w')
    /\ handed w' = handed w ++ [batch]
    /\ (len gz > MAX_COMPRESSED_SIZE ->
        posts w' = posts w
        /\ log w' = log w ++ [Error_compressed_too_large])
    /\ (len gz <= MAX_COMPRESSED_SIZE ->
        posts w' = posts w ++ [rq]
        /\ data rq = gz
        /\ log w' = log w ++ [post_outcome (requests_post (posts w) rq)]).
Proof.
  intros gz rq. rewrite send_batch_spec. cbv zeta. fold gz. fold rq.
  destruct (Z.gtb_spec (len gz) MAX_COMPRESSED_SIZE) as [Hgt|Hle];
    eexists; (split; [reflexivity|]); cbn [handed posts log];
    (split; [reflexivity|]); split; intros H; try lia; auto.
Qed.

End Batcher.

(** ** Strings: what [strip] and [splitlines] do *)

Lemma lstrip_spec (s : str) :
  exists ws,
    s = ws ++ lstrip s
    /\ forallb isspace ws = true
    /\ match lstrip s with
       | [] => True
       | c :: _ => isspace c = false
       end.
Proof.
  induction s as [|c s (ws & Heq & Hws & Hhd)].
  - exists []. cbn. auto.
  - cbn [lstrip]. destruct (isspace c) eqn:Hc.
    + exists (c :: ws). cbn. rewrite Hc, Hws. rewrite Heq at 1. auto.
    + exists []. cbn. auto.
Qed.

Lemma forallb_rev {A : Type} (f : A -> bool) (l : list A) :
  forallb f (rev l) = forallb f l.
Proof.
  induction l as [|x l IH]; [reflexivity|].
  cbn. rewrite forallb_app, IH. cbn. rewrite andb_true_r. apply andb_comm.
Qed.

Lemma rstrip_spec (s : str) :
  exists ws,
    s = rstrip s ++ ws
    /\ forallb isspace ws = true
    /\ match rev (rstrip s) with
       | [] => True
       | c :: _ => isspace c = false
       end.
Proof.
  unfold rstrip. destruct (lstrip_spec (rev s)) as (ws & Heq & Hws & Hhd).
  exists (rev ws). rewrite rev_involutive, forallb_rev.
  repeat split; auto.
  rewrite <- (rev_involutive s), Heq at 1. now rewrite rev_app_distr.
Qed.

(** [strip] removes a run of whitespace at each end, and only that: what is
    left neither starts nor ends with whitespace. *)
Lemma strip_spec (s : str) :
  exists leading trailing,
    s = leading ++ strip s ++ trailing
    /\ forallb isspace leading = true
    /\ forallb isspace trailing = true
    /\ match strip s with
       | [] => True
       | c :: _ => isspace c = false
       end
    /\ match rev (strip s) with
       | [] => True
       | c :: _ => isspace c = false
       end.
Proof.
  unfold strip.
  destruct (lstrip_spec s) as (l & Hl & Hwl & Hhd).
  destruct (rstrip_spec (lstrip s)) as (r & Hr & Hwr & Hlast).
  exists l, r. repeat split; auto.
  - rewrite Hl at 1. now rewrite Hr at 1.
  - destruct (rstrip (lstrip s)) as [|c t] eqn:E; [exact I|].
    rewrite Hr in Hhd. exact Hhd.
Qed.

(** A line feed after characters that are not line breaks ends the line. *)
Lemma splitlines_from_line_feed (first : str) :
  forall (line rest : str),
    forallb (fun c => negb (is_linebreak c)) first = true ->
    splitlines_from line (first ++ 0x0A :: rest)
    = (line ++ first) :: splitlines rest.
Proof.
  induction first as [|c first IH]; intros line rest Hno.
  - cbn. rewrite app_nil_r. destruct rest; reflexivity.
  - cbn in Hno. apply andb_prop in Hno as [Hc Hno].
    cbn [app splitlines_from]. apply negb_true_iff in Hc. rewrite Hc.
    rewrite IH by exact Hno. now rewrite <- app_assoc.
Qed.

(** An empty line between two line feeds is a line of its own. *)
Lemma splitlines_blank_line (first rest : str) :
  forallb (fun c => negb (is_linebreak c)) first = true ->
  splitlines (first ++ [0x0A; 0x0A] ++ rest)
  = first :: [] :: splitlines rest.
Proof.
  intros Hno. unfold splitlines. cbn [app].
  rewrite splitlines_from_line_feed by exact Hno. cbn [app]. f_equal.
  apply (splitlines_from_line_feed [] [] rest eq_refl).
Qed.

(** ** Results of the comprehension *)

Lemma list_comp_ok_nth {A B : Type} (f : A -> result B) (xs : list A) :
  forall ys,
    list_comp f xs = Ok ys ->
    List.length ys = List.length xs
    /\ forall i x, nth_error xs i = Some x ->
                   exists y, f x = Ok y /\ nth_error ys i = Some y.
Proof.
  induction xs as [|x xs IH]; intros ys H; cbn in H.
  - injection H as <-. split; [reflexivity|]. intros [|i] y Hy; discriminate.
  - destruct (f x) as [y|e] eqn:Hx; [|discriminate].
    destruct (list_comp f xs) as [ys'|e]; [|discriminate].
    injection H as <-. destruct (IH ys' eq_refl) as [Hlen Hnth].
    split; [cbn; now rewrite Hlen|].
    intros [|i] x' Hx'; cbn in Hx'.
    + injection Hx' as <-. exists y. auto.
    + apply Hnth, Hx'.
Qed.

Lemma list_comp_all_ok {A B : Type} (f : A -> result B) (xs : list A) :
  (forall x, In x xs -> exists y, f x = Ok y) ->
  exists ys, list_comp f xs = Ok ys.
Proof.
  induction xs as [|x xs IH]; intros Hall; cbn.
  - eauto.
  - destruct (Hall x (or_introl eq_refl)) as [y ->].
    destruct IH as [ys ->]; [intros; apply Hall; now right|]. eauto.
Qed.

Lemma list_comp_first_failure {A B : Type} (f : A -> result B)
    (good : list A) :
  forall bad rest vs e,
    list_comp f good = Ok vs ->
    f bad = Raise e ->
    list_comp f (good ++ bad :: rest) = Raise e.
Proof.
  induction good as [|x good IH]; intros bad rest vs e Hgood Hbad; cbn.
  - now rewrite Hbad.
  - cbn in Hgood. destruct (f x); [|discriminate].
    destruct (list_comp f good) as [vs'|] eqn:E; [|discriminate].
    now rewrite (IH bad rest vs' e eq_refl Hbad).
Qed.

Lemma enumerate_from_nth {A B : Type} (g : Z -> A -> B) (xs : list A) :
  forall start,
    List.length (enumerate_from start g xs) = List.length xs
    /\ forall i x, nth_error xs i = Some x ->
                   nth_error (enumerate_from start g xs) i
                   = Some (g (start + Z.of_nat i) x).
Proof.
  induction xs as [|x xs IH]; intros start; cbn.
  - split; [reflexivity|]. intros [|i] y Hy; discriminate.
  - destruct (IH (start + 1)) as [Hlen Hnth]. split; [now rewrite Hlen|].
    intros [|i] y Hy; cbn in Hy.
    + injection Hy as <-. cbn. now rewrite Z.add_0_r.
    + cbn [nth_error]. rewrite (Hnth i y Hy). do 2 f_equal. lia.
Qed.

(** ** UTF-8 decoding raises nothing but [UnicodeDecodeError] *)

Lemma cons_ok_raise (c : Z) (r : result str) (e : exn) :
  cons_ok c r = Raise e -> r = Raise e.
Proof. destruct r; cbn; congruence. Qed.

Lemma utf8_decode_raises (n : nat) :
  forall (l : list Z) (e : exn),
    (List.length l <= n)%nat ->
    utf8_decode l = Raise e -> e = UnicodeDecodeError.
Proof.
  induction n as [|n IH]; intros l e Hn H.
  - destruct l; [discriminate | cbn in Hn; lia].
  - destruct l as [|b0 t0]; [discriminate|].
    cbn [utf8_decode] in H. cbn [List.length] in Hn.
    repeat match type of H with
           | cons_ok _ _ = Raise _ =>
               apply cons_ok_raise in H; eapply IH; [|exact H]; cbn in *; lia
           | Raise _ = Raise _ => now injection H as <-
           | context [if ?c then _ else _] => destruct c
           | context [match ?t with _ => _ end] => destruct t
           end.
Qed.

Lemma decode_utf8_raises (blob : bytes) (e : exn) :
  decode_utf8 blob = Raise e -> e = UnicodeDecodeError.
Proof. unfold decode_utf8. now apply (utf8_decode_raises _ _ e (le_n _)). Qed.

(** ** The format handlers *)

Ltac run_handler :=
  unfold handle_ndjson, handle_json, handle_flat_text, handle_xml,
    try_except, bind, lift, ret, logging, logged;
  cbv beta iota zeta.

Section Handlers.

Variable json_loads : str -> result json.

Lemma handle_ndjson_lines (blob : bytes) (decoded : str) (w : World) :
  decode_utf8 blob = Ok decoded ->
  handle_ndjson json_loads blob w
  = match list_comp json_loads (splitlines (strip decoded)) with
    | Ok records => (Ok (Some records), w)
    | Raise e =>
        if is_JSONDecodeError e
        then (Ok None, logged w (Error_parsing_NDJSON e))
        else (Raise e, w)
    end.
Proof.
  intros Hd. run_handler. rewrite Hd.
  destruct (list_comp json_loads _) as [records|e]; [reflexivity|].
  destruct (is_JSONDecodeError e); reflexivity.
Qed.

Lemma handle_json_lines (blob : bytes) (decoded : str) (w : World) :
  decode_utf8 blob = Ok decoded ->
  handle_json json_loads blob w
  = match list_comp json_loads (splitlines (strip decoded)) with
    | Ok records => (Ok (Some records), w)
    | Raise e =>
        if is_JSONDecodeError e then
          match json_loads decoded with
          | Ok document => (Ok (Some [document]), w)
          | Raise e' =>
              if is_JSONDecodeError e'
              then (Ok None, logged w (Error_parsing_JSON e'))
              else (Raise e', w)
          end
        else (Raise e, w)
    end.
Proof.
  intros Hd. run_handler. rewrite Hd.
  destruct (list_comp json_loads _) as [records|e]; [reflexivity|].
  destruct (is_JSONDecodeError e); [|reflexivity].
  destruct (json_loads decoded) as [document|e']; [reflexivity|].
  destruct (is_JSONDecodeError e'); reflexivity.
Qed.

Lemma handle_json_undecodable (blob : bytes) (e : exn) (w : World) :
  decode_utf8 blob = Raise e ->
  handle_json json_loads blob w = (Raise UnicodeDecodeError, w).
Proof.
  intros Hd. pose proof (decode_utf8_raises blob e Hd) as ->.
  run_handler. rewrite Hd. reflexivity.
Qed.

Lemma handle_flat_text_lines (blob : bytes) (decoded : str) (w : World) :
  decode_utf8 blob = Ok decoded ->
  handle_flat_text blob w
  = (Ok (Some (enumerate_from 0 line_record (splitlines (strip decoded)))), w).
Proof. intros Hd. run_handler. now rewrite Hd. Qed.

(** C5, as the code has it.  For a [.ndjson] blob that decodes, take the
    lines of the text stripped of whitespace at both ends.  If [json.loads]
    accepts every one of them, the handler returns one record per line, the
    value of that line, in line order, and logs nothing.  A line that
    [json.loads] rejects with [JSONDecodeError], the lines before it being
    accepted, fails the whole file: the result is [None] and the error is
    logged.  No line is skipped, an empty one no more than another. *)
Theorem C5_ndjson_one_record_per_line (blob : bytes) (decoded : str)
    (w : World) :
  decode_utf8 blob = Ok decoded ->
  let lines := splitlines (strip decoded) in
  ((forall line, In line lines -> exists v, json_loads line = Ok v) ->
   exists records,
     handle_ndjson json_loads blob w = (Ok (Some records), w)
     /\ List.length records = List.length lines
     /\ forall i line,
          nth_error lines i = Some line ->
          exists v, json_loads line = Ok v /\ nth_error records i = Some v)
  /\ (forall good bad rest vs,
        lines = good ++ bad :: rest ->
        list_comp json_loads good = Ok vs ->
        json_loads bad = Raise JSONDecodeError ->
        handle_ndjson json_loads blob w
        = (Ok None, logged w (Error_parsing_NDJSON JSONDecodeError))).
Proof.
  intros Hd lines. split.
  - intros Hall. destruct (list_comp_all_ok json_loads lines Hall) as [rs Hrs].
    exists rs. rewrite (handle_ndjson_lines blob decoded w Hd). fold lines.
    rewrite Hrs. split; [reflexivity|]. now apply list_comp_ok_nth.
  - intros good bad rest vs Hlines Hgood Hbad.
    rewrite (handle_ndjson_lines blob decoded w Hd). fold lines.
    rewrite Hlines, (list_comp_first_failure _ good bad rest vs _ Hgood Hbad).
    reflexivity.
Qed.

(** C6.  For a [.json] blob that decodes, the lines of the stripped text are
    tried first: if [json.loads] accepts them all, the records are their
    values and the document as a whole is not parsed.  If a line is rejected
    with [JSONDecodeError] (the lines before it being accepted), the whole
    decoded content is parsed instead: accepted, it is the only record;
    rejected with [JSONDecodeError], the result is [None] and the error is
    logged.  A blob that does not decode raises [UnicodeDecodeError]. *)
Theorem C6_json_lines_then_whole_document (blob : bytes) (w : World) :
  match decode_utf8 blob with
  | Raise _ => handle_json json_loads blob w = (Raise UnicodeDecodeError, w)
  | Ok decoded =>
      let lines := splitlines (strip decoded) in
      ((forall line, In line lines -> exists v, json_loads line = Ok v) ->
       exists records,
         list_comp json_loads lines = Ok records
         /\ handle_json json_loads blob w = (Ok (Some records), w))
      /\ (forall good bad rest vs,
            lines = good ++ bad :: rest ->
            list_comp json_loads good = Ok vs ->
            json_loads bad = Raise JSONDecodeError ->
            (forall document,
                json_loads decoded = Ok document ->
                handle_json json_loads blob w = (Ok (Some [document]), w))
            /\ (json_loads decoded = Raise JSONDecodeError ->
                handle_json json_loads blob w
                = (Ok None, logged w (Error_parsing_JSON JSONDecodeError))))
  end.
Proof.
  destruct (decode_utf8 blob) as [decoded|e] eqn:Hd.
  - set (lines := splitlines (strip decoded)). split.
    + intros Hall.
      destruct (list_comp_all_ok json_loads lines Hall) as [rs Hrs].
      exists rs. split; [exact Hrs|].
      rewrite (handle_json_lines blob decoded w Hd). fold lines.
      now rewrite Hrs.
    + intros good bad rest vs Hlines Hgood Hbad.
      rewrite (handle_json_lines blob decoded w Hd). fold lines.
      rewrite Hlines, (list_comp_first_failure _ good bad rest vs _ Hgood Hbad).
      cbn [is_JSONDecodeError]. split.
      * intros document ->. reflexivity.
      * intros ->. reflexivity.
  - now apply (handle_json_undecodable blob e).
Qed.

(** C7, as the code has it.  For a [.txt] blob that decodes, the text is
    stripped of whitespace at both ends (so leading blank lines and the
    leading whitespace of the first line go too), the rest is split into
    lines, and the [i]-th line (from 1) becomes the record
    [{"line_number": i, "content": line}].  The handler does not fail on
    decodable input and logs nothing; an empty blob gives no record. *)
Theorem C7_flat_text_strips_both_ends (blob : bytes) (decoded : str)
    (w : World) :
  decode_utf8 blob = Ok decoded ->
  let lines := splitlines (strip decoded) in
  exists leading trailing records,
    decoded = leading ++ strip decoded ++ trailing
    /\ forallb isspace leading = true
    /\ forallb isspace trailing = true
    /\ match strip decoded with
       | [] => True
       | c :: _ => isspace c = false
       end
    /\ handle_flat_text blob w = (Ok (Some records), w)
    /\ List.length records = List.length lines
    /\ (forall i line,
          nth_error lines i = Some line ->
          nth_error records i
          = Some (JDict [(lit "line_number", JInt (Z.of_nat i + 1));
                         (lit "content", JStr line)]))
    /\ (blob = [] -> records = []).
Proof.
  intros Hd lines.
  destruct (strip_spec decoded) as (l & r & Heq & Hl & Hr & Hhd & _).
  exists l, r, (enumerate_from 0 line_record lines).
  destruct (enumerate_from_nth line_record lines 0) as [Hlen Hnth].
  split; [exact Heq|]. split; [exact Hl|]. split; [exact Hr|].
  split; [exact Hhd|]. split; [now apply handle_flat_text_lines|].
  split; [exact Hlen|]. split.
  - intros i line Hi. rewrite (Hnth i line Hi). reflexivity.
  - intros ->. cbv in Hd. injection Hd as <-. reflexivity.
Qed.

(** C10.  For a [.txt] blob that decodes, every line of the stripped text
    is a record, an empty line too: an empty line at position [i] (from 0)
    gives [{"line_number": i + 1, "content": ""}], so the lines after it
    are numbered counting it.  Where the stripped text is a first line, two
    line feeds and a rest, the empty line between them is record 2 and the
    lines of the rest are numbered from 3. *)
Theorem C10_blank_lines_are_numbered (blob : bytes) (decoded : str)
    (w : World) :
  decode_utf8 blob = Ok decoded ->
  let lines := splitlines (strip decoded) in
  exists records,
    handle_flat_text blob w = (Ok (Some records), w)
    /\ List.length records = List.length lines
    /\ (forall i,
          nth_error lines i = Some [] ->
          nth_error records i
          = Some (JDict [(lit "line_number", JInt (Z.of_nat i + 1));
                         (lit "content", JStr [])]))
    /\ (forall first rest,
          strip decoded = first ++ [0x0A; 0x0A] ++ rest ->
          forallb (fun c => negb (is_linebreak c)) first = true ->
          records
          = JDict [(lit "line_number", JInt 1); (lit "content", JStr first)]
            :: JDict [(lit "line_number", JInt 2); (lit "content", JStr [])]
            :: enumerate_from 2 line_record (splitlines rest)).
Proof.
  intros Hd lines. exists (enumerate_from 0 line_record lines).
  destruct (enumerate_from_nth line_record lines 0) as [Hlen Hnth].
  split; [now apply handle_flat_text_lines|]. split; [exact Hlen|]. split.
  - intros i Hi. rewrite (Hnth i [] Hi). reflexivity.
  - intros first rest Hshape Hno. unfold lines.
    rewrite Hshape, (splitlines_blank_line first rest Hno). reflexivity.
Qed.

End Handlers.

(** ** Computations that only log *)

Lemma quiet_ret {A : Type} (a : A) : quiet (ret a).
Proof. intros [l p h]. exists (Ok a), []. cbn. now rewrite app_nil_r. Qed.

Lemma quiet_lift {A : Type} (r : result A) : quiet (lift r).
Proof. intros [l p h]. exists r, []. cbn. now rewrite app_nil_r. Qed.

Lemma quiet_logging (ev : event) : quiet (logging ev).
Proof. intros w. exists (Ok tt), [ev]. reflexivity. Qed.

Lemma quiet_bind {A B : Type} (m : M A) (k : A -> M B) :
  quiet m -> (forall a, quiet (k a)) -> quiet (bind m k).
Proof.
  intros Hm Hk w. unfold bind. destruct (Hm w) as ([a|e] & evs & ->).
  - destruct (Hk a (mk_World (log w ++ evs) (posts w) (handed w)))
      as (res & evs' & ->).
    exists res, (evs ++ evs'). cbn. now rewrite app_assoc.
  - exists (Raise e), evs. reflexivity.
Qed.

Lemma quiet_try_except {A : Type} (body : M A) (catch : exn -> bool)
    (handler : exn -> M A) :
  quiet body -> (forall e, quiet (handler e)) ->
  quiet (try_except body catch handler).
Proof.
  intros Hb Hh w. unfold try_except. destruct (Hb w) as ([a|e] & evs & ->).
  - exists (Ok a), evs. reflexivity.
  - destruct (catch e).
    + destruct (Hh e (mk_World (log w ++ evs) (posts w) (handed w)))
        as (res & evs' & ->).
      exists res, (evs ++ evs'). cbn. now rewrite app_assoc.
    + exists (Raise e), evs. reflexivity.
Qed.

(** [try: body  except Exception as e: handler e] returns whenever the
    handler does, whatever [body] does. *)
Lemma except_Exception_never_propagates (body : M unit)
    (handler : exn -> M unit) (w : World) :
  (forall e w1, exists w2, handler e w1 = (Ok tt, w2)) ->
  exists w', try_except body is_Exception handler w = (Ok tt, w').
Proof.
  intros Hh. unfold try_except.
  destruct (body w) as [[[]|e] w1]; cbn [is_Exception]; eauto.
Qed.

(** Under [except Exception], a handler that returns and only logs makes
    the whole statement return and only log. *)
Lemma try_except_Exception_quiet {A : Type} (body : M A)
    (handler : exn -> M A) :
  quiet body ->
  (forall e w, exists a evs,
      handler e w = (Ok a, mk_World (log w ++ evs) (posts w) (handed w))) ->
  forall w, exists a evs,
    try_except body is_Exception handler w
    = (Ok a, mk_World (log w ++ evs) (posts w) (handed w)).
Proof.
  intros Hb Hh w. unfold try_except. destruct (Hb w) as ([a|e] & evs & ->).
  - exists a, evs. reflexivity.
  - cbn [is_Exception].
    destruct (Hh e (mk_World (log w ++ evs) (posts w) (handed w)))
      as (a & evs' & ->).
    exists a, (evs ++ evs'). cbn. now rewrite app_assoc.
Qed.

Ltac quiet_steps :=
  repeat first
    [ apply quiet_try_except | apply quiet_bind | apply quiet_ret
    | apply quiet_lift | apply quiet_logging | intro ].

(** ** The pipeline *)

Section Pipeline.

Variable json_loads : str -> result json.
Variable json_dumps : json -> str.
Variable xmltodict_parse : str -> result json.
Variable gzip_compress : bytes -> bytes.
Variable requests_post : list request -> request -> result response.

Lemma dispatch_quiet (blob_content : bytes) (file_name : str) :
  quiet
    (if endswith file_name (lit ".ndjson")
     then handle_ndjson json_loads blob_content
     else if endswith file_name (lit ".json")
     then handle_json json_loads blob_content
     else if endswith file_name (lit ".txt")
     then handle_flat_text blob_content
     else if endswith file_name (lit ".xml")
     then handle_xml xmltodict_parse blob_content
     else bind (logging (Error_unsupported_file_type file_name))
               (fun _ => ret None)).
Proof.
  repeat match goal with
         | |- quiet (if ?c then _ else _) => destruct c
         end;
    unfold handle_ndjson, handle_json, handle_flat_text, handle_xml;
    quiet_steps.
Qed.

(** The parser stage never raises, posts nothing and sends nothing. *)
Lemma process_blob_content_returns (blob_content : bytes) (file_name : str)
    (w : World) :
  exists (r : option (list json)) (evs : list event),
    process_blob_content json_loads xmltodict_parse blob_content file_name w
    = (Ok r, mk_World (log w ++ evs) (posts w) (handed w)).
Proof.
  unfold process_blob_content.
  apply try_except_Exception_quiet; [apply dispatch_quiet|].
  intros e w1. exists None, [Error_processing_blob_content file_name e].
  reflexivity.
Qed.

Lemma send_all_bodies (bs : list (list json)) :
  forall (endpoint token : option str) (w : World),
    map data (posts (send_all json_dumps gzip_compress requests_post bs
                              endpoint token w))
    = map data (posts w) ++ posted_bodies json_dumps gzip_compress bs.
Proof.
  induction bs as [|b bs IH]; intros endpoint token w;
    cbn [send_all posted_bodies map filter].
  - now rewrite app_nil_r.
  - rewrite IH, send_batch_spec. cbv zeta. unfold posted_bodies.
    destruct (len _ >? MAX_COMPRESSED_SIZE); cbn [snd posts negb].
    + reflexivity.
    + rewrite map_app, <- app_assoc. reflexivity.
Qed.

(** What one invocation leaves behind, stage by stage. *)
Lemma blob_trigger_runs (os_getenv : string -> option str)
    (myblob : InputStream) (w : World) :
  let endpoint := os_getenv "OBSERVE_HTTP_ENDPOINT"%string in
  let token := os_getenv "OBSERVE_API_TOKEN"%string in
  let w0 := logged w (Info_blob_processed (name myblob) (length myblob)) in
  blob_trigger json_loads json_dumps xmltodict_parse gzip_compress
               requests_post os_getenv myblob w
  = (Ok tt,
     match read myblob with
     | Raise e => logged w0 (Error_processing_blob e)
     | Ok blob_data =>
         match process_blob_content json_loads xmltodict_parse blob_data
                                    (name myblob) w0 with
         | (Ok (Some (first :: others)), w1) =>
             send_all json_dumps gzip_compress requests_post
                      (all_flushed json_dumps (first :: others))
                      endpoint token w1
         | (Ok _, w1) => logged w1 Error_no_valid_data
         | (Raise e, w1) => logged w1 (Error_processing_blob e)
         end
     end).
Proof.
  intros endpoint token w0. subst w0.
  unfold blob_trigger, try_except, bind, lift, logging, ret, logged.
  cbv beta iota zeta. fold endpoint. fold token.
  destruct (read myblob) as [blob_data|e]; [|reflexivity].
  destruct (process_blob_content json_loads xmltodict_parse blob_data
                                 (name myblob) _) as [[[[|first others]|]|e] w1];
    try reflexivity.
  now rewrite batcher_sends_all_flushed.
Qed.

Lemma all_flushed_not_nil (first : json) (others : list json) :
  all_flushed json_dumps (first :: others) <> [].
Proof.
  intros H. pose proof (all_flushed_concat json_dumps (first :: others)) as Hc.
  rewrite H in Hc. discriminate.
Qed.

(** C8.  Whatever the name and the content of the blob, whatever reading
    it, the parsers and the transport return or raise, [blob_trigger]
    returns normally.  The log gains the entry of the invocation and then
    those of its stages; an invocation that posts nothing has logged an
    error; a [read] that raises is logged as such and nothing is posted. *)
Theorem C8_blob_trigger_never_raises (os_getenv : string -> option str)
    (myblob : InputStream) (w : World) :
  exists (w' : World) (evs : list event) (later : list request),
    blob_trigger json_loads json_dumps xmltodict_parse gzip_compress
                 requests_post os_getenv myblob w
    = (Ok tt, w')
    /\ log w'
       = log w ++ Info_blob_processed (name myblob) (length myblob) :: evs
    /\ posts w' = posts w ++ later
    /\ (later = [] -> exists ev, In ev evs /\ is_error ev = true)
    /\ (forall e, read myblob = Raise e ->
                  evs = [Error_processing_blob e] /\ later = []).
Proof.
  rewrite blob_trigger_runs. cbv zeta.
  destruct (read myblob) as [blob_data|e].
  - destruct (process_blob_content_returns blob_data (name myblob)
                (logged w (Info_blob_processed (name myblob) (length myblob))))
      as (r & evs1 & ->).
    assert (Hquiet :
      exists w',
        w' = logged (mk_World
                       (log (logged w (Info_blob_processed (name myblob)
                                                           (length myblob)))
                        ++ evs1) (posts w) (handed w)) Error_no_valid_data
        /\ log w' = log w ++ Info_blob_processed (name myblob) (length myblob)
                             :: evs1 ++ [Error_no_valid_data]
        /\ posts w' = posts w ++ []).
    { eexists. split; [reflexivity|]. cbn.
      rewrite app_nil_r, <- !app_assoc. auto. }
    destruct Hquiet as (wq & -> & Hlq & Hpq).
    destruct r as [[|first others]|].
    + eexists _, (evs1 ++ [Error_no_valid_data]), [].
      split; [reflexivity|]. split; [exact Hlq|]. split; [exact Hpq|].
      split; [|discriminate].
      intros _. exists Error_no_valid_data. split; [|reflexivity].
      apply in_or_app. right. now left.
    + match goal with
      | |- context [send_all _ _ _ ?bs ?ep ?tok ?w1] =>
          destruct (send_all_effects json_dumps gzip_compress requests_post
                      bs ep tok w1) as (evs2 & later & Hl & Hp & _ & Hn & He)
      end.
      eexists _, (evs1 ++ evs2), later.
      split; [reflexivity|]. rewrite Hl, Hp. cbn [log posts logged].
      split; [now rewrite <- !app_assoc|]. split; [reflexivity|].
      split; [|discriminate].
      intros Hnone. specialize (He Hnone).
      destruct evs2 as [|ev evs2].
      * pose proof (all_flushed_not_nil first others) as Hne.
        destruct (all_flushed json_dumps (first :: others));
          [now elim Hne | discriminate].
      * exists ev. split; [apply in_or_app; right; now left|].
        now inversion He.
    + eexists _, (evs1 ++ [Error_no_valid_data]), [].
      split; [reflexivity|]. split; [exact Hlq|]. split; [exact Hpq|].
      split; [|discriminate].
      intros _. exists Error_no_valid_data. split; [|reflexivity].
      apply in_or_app. right. now left.
  - eexists _, [Error_processing_blob e], [].
    split; [reflexivity|]. cbn. rewrite app_nil_r, <- app_assoc.
    repeat split; auto.
    + intros _. exists (Error_processing_blob e). split; [now left|reflexivity].
    + now injection H as <-.
Qed.

(** C9, as the code has it.  The environment is read and never checked.
    Every POST of an invocation is made to the endpoint as read ([None] when
    the variable is not set) with the [Authorization] header built from the
    token as read ([Bearer None] when it is not set); and another
    environment changes neither the batches handed to [send_batch] nor the
    bodies posted. *)
Theorem C9_environment_is_not_checked (os_getenv : string -> option str)
    (myblob : InputStream) (w : World) :
  let endpoint := os_getenv "OBSERVE_HTTP_ENDPOINT"%string in
  let token := os_getenv "OBSERVE_API_TOKEN"%string in
  exists (w' : World) (later : list request),
    blob_trigger json_loads json_dumps xmltodict_parse gzip_compress
                 requests_post os_getenv myblob w
    = (Ok tt, w')
    /\ posts w' = posts w ++ later
    /\ Forall (fun rq =>
                 url rq = endpoint
                 /\ headers rq
                    = [(lit "Authorization", lit "Bearer " ++ format_opt token);
                       (lit "Content-type", lit "application/x-ndjson");
                       (lit "Content-encoding", lit "gzip")]) later
    /\ (forall other_env : string -> option str,
          let w2 := snd (blob_trigger json_loads json_dumps xmltodict_parse
                                      gzip_compress requests_post other_env
                                      myblob w) in
          handed w2 = handed w' /\ map data (posts w2) = map data (posts w')).
Proof.
  intros endpoint token. rewrite blob_trigger_runs. cbv zeta.
  fold endpoint. fold token.
  destruct (read myblob) as [blob_data|e] eqn:Hread.
  - destruct (process_blob_content_returns blob_data (name myblob)
                (logged w (Info_blob_processed (name myblob) (length myblob))))
      as (r & evs1 & Hproc).
    rewrite Hproc.
    destruct r as [[|first others]|].
    + eexists _, []. split; [reflexivity|].
      split; [cbn; now rewrite app_nil_r|]. split; [constructor|].
      intros other_env. rewrite blob_trigger_runs. cbv zeta.
      rewrite Hread, Hproc. split; reflexivity.
    + match goal with
      | |- context [send_all _ _ _ ?bs endpoint token ?w1] =>
          destruct (send_all_effects json_dumps gzip_compress requests_post
                      bs endpoint token w1) as (evs2 & later & _ & Hp & Ha & _)
      end.
      eexists _, later. split; [reflexivity|]. split; [exact Hp|].
      split; [exact Ha|].
      intros other_env. rewrite blob_trigger_runs. cbv zeta.
      rewrite Hread, Hproc. cbn [snd].
      now rewrite !send_all_handed, !send_all_bodies.
    + eexists _, []. split; [reflexivity|].
      split; [cbn; now rewrite app_nil_r|]. split; [constructor|].
      intros other_env. rewrite blob_trigger_runs. cbv zeta.
      rewrite Hread, Hproc. split; reflexivity.
  - eexists _, []. split; [reflexivity|].
    split; [cbn; now rewrite app_nil_r|]. split; [constructor|].
    intros other_env. rewrite blob_trigger_runs. cbv zeta.
    rewrite Hread. split; reflexivity.
Qed.

End Pipeline.

(** * The program on concrete inputs *)

Lemma flat_map_singletons {A : Type} (f : A -> list A) (l : list A) :
  Forall (fun x => f x = [x]) l -> flat_map f l = l.
Proof.
  induction 1 as [|x l Hx _ IH]; [reflexivity|].
  cbn. now rewrite Hx, IH.
Qed.

Lemma Forall_repeat {A : Type} (P : A -> Prop) (x : A) (k : nat) :
  P x -> Forall P (repeat x k).
Proof. intros Hx. induction k; cbn; auto. Qed.

(** The serialization of a string of [n] letters [a] is the string between
    quotes, one byte per character. *)
Lemma size_of_letters (n : Z) :
  0 <= n ->
  serialized_size Ref.json_dumps (JStr (replicate n 0x61)) = n + 2.
Proof.
  intros Hn. unfold serialized_size, encode_utf8, replicate.
  rewrite len_map. cbn [Ref.json_dumps]. unfold Ref.encode_basestring_ascii.
  generalize (Z.to_nat n) (Z2Nat.id n Hn). intros k Hk.
  rewrite (flat_map_singletons Ref.escape_char (repeat 0x61 k))
    by (apply Forall_repeat; reflexivity).
  rewrite (flat_map_singletons utf8_encode_char).
  - rewrite !len_app. unfold len. rewrite repeat_length.
    cbn [List.length]. lia.
  - apply Forall_app. split; [repeat constructor|].
    apply Forall_app. split; [|repeat constructor].
    apply Forall_repeat. reflexivity.
Qed.

Lemma oversized_size :
  serialized_size Ref.json_dumps Ref.oversized > MAX_UNCOMPRESSED_SIZE.
Proof.
  unfold Ref.oversized. rewrite size_of_letters; unfold MAX_UNCOMPRESSED_SIZE; lia.
Qed.

Lemma huge_envelope :
  len (envelope Ref.json_dumps Ref.gzip_compress [Ref.huge])
  > MAX_COMPRESSED_SIZE.
Proof.
  unfold envelope, Ref.gzip_compress. cbn [map join].
  fold (serialized_size Ref.json_dumps Ref.huge).
  unfold Ref.huge.
  rewrite size_of_letters; unfold MAX_COMPRESSED_SIZE; lia.
Qed.

(** The oversized record alone: the loop flushes the empty batch, the final
    flush sends the record. *)
Lemma all_flushed_oversized_alone :
  all_flushed Ref.json_dumps [Ref.oversized] = [[]; [Ref.oversized]].
Proof.
  unfold all_flushed. cbn [flushed].
  pose proof oversized_size as Hbig.
  destruct (Z.gtb_spec (0 + serialized_size Ref.json_dumps Ref.oversized)
                       MAX_UNCOMPRESSED_SIZE) as [_|Hle]; [reflexivity | lia].
Qed.

(** Witness of C1: an oversized record between two small ones is handed
    over alone, after the batch of the first and before that of the last. *)
Lemma C1_witness :
  exists (w' : World) (bs1 bs2 : list (list json)),
    batch_and_send_to_observe Ref.json_dumps Ref.gzip_compress
      Ref.requests_post [JInt 1; Ref.oversized; JInt 2] None None empty_world
    = (Ok tt, w')
    /\ handed w' = bs1 ++ [Ref.oversized] :: bs2
    /\ List.concat bs1 = [JInt 1]
    /\ List.concat bs2 = [JInt 2].
Proof.
  destruct (C1_batches_partition_the_stream Ref.json_dumps Ref.gzip_compress
              Ref.requests_post [JInt 1; Ref.oversized; JInt 2] None None
              empty_world) as (w' & batches & Hrun & Hh & _ & Hover).
  destruct (Hover [JInt 1] Ref.oversized [JInt 2] eq_refl oversized_size)
    as (bs1 & bs2 & Hb & H1 & H2).
  exists w', bs1, bs2. rewrite Hh, Hb. auto.
Defined.

Lemma oversized_alone_handed (w' : World) :
  batch_and_send_to_observe Ref.json_dumps Ref.gzip_compress
    Ref.requests_post [Ref.oversized] None None empty_world
  = (Ok tt, w') ->
  handed w' = [[]; [Ref.oversized]].
Proof.
  intros Hrun. rewrite batcher_sends_all_flushed in Hrun.
  assert (Hw : send_all Ref.json_dumps Ref.gzip_compress Ref.requests_post
                 (all_flushed Ref.json_dumps [Ref.oversized]) None None
                 empty_world = w') by congruence.
  rewrite <- Hw, send_all_handed, all_flushed_oversized_alone. reflexivity.
Qed.

(** Witness of C3: the stream of one oversized record.  [send_batch] is
    called on the empty batch, then on the record; the empty payload is
    posted first. *)
Lemma C3_witness :
  exists (w' : World) (later : list request),
    batch_and_send_to_observe Ref.json_dumps Ref.gzip_compress
      Ref.requests_post [Ref.oversized] None None empty_world
    = (Ok tt, w')
    /\ handed w' = [[]; [Ref.oversized]]
    /\ posts w' = mk_request None (observe_headers None) [] :: later.
Proof.
  destruct (C3_oversized_first_record_sends_empty_batch Ref.json_dumps
              Ref.gzip_compress Ref.requests_post Ref.oversized [] None None
              empty_world oversized_size)
    as (w' & batches & Hrun & _ & Hposts).
  destruct Hposts as (later & Hp).
  { unfold Ref.gzip_compress, MAX_COMPRESSED_SIZE. cbn. lia. }
  exists w', later.
  split; [exact Hrun|]. split; [exact (oversized_alone_handed w' Hrun)|exact Hp].
Defined.

(** Witness of C4: a small batch is posted once; a batch whose payload
    is above the compressed ceiling is logged and not posted. *)
Lemma C4_witness :
  (exists w' : World,
      send_batch Ref.json_dumps Ref.gzip_compress Ref.requests_post
                 [JInt 1; JInt 2] None (Some (lit "secret")) empty_world
      = (Ok tt, w')
      /\ posts w'
         = [mk_request None (observe_headers (Some (lit "secret")))
                       [x31; x0a; x32]]
      /\ log w' = [Info_observe_response 200 []])
  /\ (exists w' : World,
         send_batch Ref.json_dumps Ref.gzip_compress Ref.requests_post
                    [Ref.huge] None (Some (lit "secret")) empty_world
         = (Ok tt, w')
         /\ posts w' = []
         /\ log w' = [Error_compressed_too_large]
         /\ handed w' = [[Ref.huge]]).
Proof.
  split.
  - destruct (C4_send_batch_compressed_ceiling Ref.json_dumps
                Ref.gzip_compress Ref.requests_post [JInt 1; JInt 2] None
                (Some (lit "secret")) empty_world)
      as (w' & Hrun & _ & _ & Hsmall).
    destruct Hsmall as (Hp & _ & Hl).
    { vm_compute. discriminate. }
    exists w'. split; [exact Hrun|]. split; [exact Hp | exact Hl].
  - destruct (C4_send_batch_compressed_ceiling Ref.json_dumps
                Ref.gzip_compress Ref.requests_post [Ref.huge] None
                (Some (lit "secret")) empty_world)
      as (w' & Hrun & Hh & Hbig & _).
    destruct (Hbig huge_envelope) as (Hp & Hl).
    exists w'. auto.
Defined.

(** *** The handlers on concrete blobs *)

(** Counterexample to C5 as worded.  The non-empty lines of ["1\n\n2"] are
    valid JSON, so the claim promises the records 1 and 2; the handler
    parses the empty line too, fails on it and returns [None]. *)
Lemma C5_counterexample :
  decode_utf8 blob_with_blank_line = Ok [0x31; 0x0A; 0x0A; 0x32]
  /\ ndjson_as_claimed Ref.json_loads [0x31; 0x0A; 0x0A; 0x32]
     = Ok [JInt 1; JInt 2]
  /\ handle_ndjson Ref.json_loads blob_with_blank_line empty_world
     = (Ok None, logged empty_world (Error_parsing_NDJSON JSONDecodeError)).
Proof. repeat split; vm_compute; reflexivity. Qed.

(** Witness of C5: two valid lines give two records; an empty line between
    them fails the file. *)
Lemma C5_witness :
  (exists records,
      handle_ndjson Ref.json_loads blob_two_lines empty_world
      = (Ok (Some records), empty_world)
      /\ List.length records = 2%nat
      /\ nth_error records 0 = Some (JInt 1)
      /\ nth_error records 1 = Some (JInt 2))
  /\ handle_ndjson Ref.json_loads blob_with_blank_line empty_world
     = (Ok None, logged empty_world (Error_parsing_NDJSON JSONDecodeError)).
Proof.
  split.
  - destruct (C5_ndjson_one_record_per_line Ref.json_loads blob_two_lines
                [0x31; 0x0A; 0x32; 0x0A] empty_world eq_refl) as [Hok _].
    destruct Hok as (records & Hrun & Hlen & Hnth).
    { intros line [<-|[<-|[]]]; eexists; vm_compute; reflexivity. }
    exists records. split; [exact Hrun|]. split; [exact Hlen|].
    split.
    + destruct (Hnth 0%nat [0x31] eq_refl) as (v & Hv & ->).
      vm_compute in Hv. now injection Hv as <-.
    + destruct (Hnth 1%nat [0x32] eq_refl) as (v & Hv & ->).
      vm_compute in Hv. now injection Hv as <-.
  - destruct (C5_ndjson_one_record_per_line Ref.json_loads
                blob_with_blank_line [0x31; 0x0A; 0x0A; 0x32] empty_world
                eq_refl) as [_ Hbad].
    exact (Hbad [[0x31]] [] [[0x32]] [JInt 1] eq_refl eq_refl eq_refl).
Defined.

(** Witness of C6: an object written over three lines is not line-shaped,
    so the whole document is parsed and is the only record; two lines of
    JSON are two records. *)
Lemma C6_witness :
  handle_json Ref.json_loads blob_object_on_three_lines empty_world
  = (Ok (Some [JDict [([0x61], JInt 1)]]), empty_world)
  /\ exists records,
       list_comp Ref.json_loads [[0x31]; [0x32]] = Ok records
       /\ handle_json Ref.json_loads blob_two_lines empty_world
          = (Ok (Some records), empty_world).
Proof.
  split.
  - pose proof (C6_json_lines_then_whole_document Ref.json_loads
                  blob_object_on_three_lines empty_world) as H.
    change (decode_utf8 blob_object_on_three_lines)
      with (Ok (A := str) [0x7B; 0x0A; 0x22; 0x61; 0x22; 0x3A; 0x20; 0x31;
                           0x0A; 0x7D]) in H.
    cbv beta iota zeta in H. destruct H as [_ Hfall].
    destruct (Hfall [] [0x7B] [[0x22; 0x61; 0x22; 0x3A; 0x20; 0x31]; [0x7D]]
                    [] eq_refl eq_refl eq_refl) as [Hdoc _].
    exact (Hdoc (JDict [([0x61], JInt 1)]) eq_refl).
  - pose proof (C6_json_lines_then_whole_document Ref.json_loads
                  blob_two_lines empty_world) as H.
    change (decode_utf8 blob_two_lines)
      with (Ok (A := str) [0x31; 0x0A; 0x32; 0x0A]) in H.
    cbv beta iota zeta in H. destruct H as [Hall _].
    apply Hall.
    intros line [<-|[<-|[]]]; eexists; vm_compute; reflexivity.
Defined.

(** Counterexample to C7 as worded.  With only trailing whitespace
    stripped, ["\n a\n\nb \n"] would give four records, the first with an
    empty content and the second with [" a"]; the handler strips the front
    too and returns three, the first with content ["a"]. *)
Lemma C7_counterexample :
  decode_utf8 blob_text = Ok [0x0A; 0x20; 0x61; 0x0A; 0x0A; 0x62; 0x20; 0x0A]
  /\ flat_text_as_claimed [0x0A; 0x20; 0x61; 0x0A; 0x0A; 0x62; 0x20; 0x0A]
     = [line_record 0 []; line_record 1 [0x20; 0x61]; line_record 2 [];
        line_record 3 [0x62]]
  /\ handle_flat_text blob_text empty_world
     = (Ok (Some [line_record 0 [0x61]; line_record 1 [];
                  line_record 2 [0x62]]), empty_world).
Proof. repeat split; vm_compute; reflexivity. Qed.

(** Witness of C7: the same blob through the theorem. *)
Lemma C7_witness :
  exists leading trailing records,
    [0x0A; 0x20; 0x61; 0x0A; 0x0A; 0x62; 0x20; 0x0A]
    = leading ++ [0x61; 0x0A; 0x0A; 0x62] ++ trailing
    /\ forallb isspace leading = true
    /\ forallb isspace trailing = true
    /\ handle_flat_text blob_text empty_world = (Ok (Some records), empty_world)
    /\ List.length records = 3%nat
    /\ nth_error records 0
       = Some (JDict [(lit "line_number", JInt 1); (lit "content", JStr [0x61])]).
Proof.
  destruct (C7_flat_text_strips_both_ends blob_text
              [0x0A; 0x20; 0x61; 0x0A; 0x0A; 0x62; 0x20; 0x0A] empty_world
              eq_refl)
    as (l & r & records & Heq & Hl & Hr & _ & Hrun & Hlen & Hnth & _).
  exists l, r, records.
  split; [exact Heq|]. split; [exact Hl|]. split; [exact Hr|].
  split; [exact Hrun|]. split; [exact Hlen|].
  exact (Hnth 0%nat [0x61] eq_refl).
Defined.

(** Witness of C10: in ["\n a\n\nb \n"] the empty line inside is record 2
    and the line after it is record 3. *)
Lemma C10_witness :
  exists records,
    handle_flat_text blob_text empty_world = (Ok (Some records), empty_world)
    /\ nth_error records 1
       = Some (JDict [(lit "line_number", JInt 2); (lit "content", JStr [])])
    /\ records
       = [JDict [(lit "line_number", JInt 1); (lit "content", JStr [0x61])];
          JDict [(lit "line_number", JInt 2); (lit "content", JStr [])];
          JDict [(lit "line_number", JInt 3); (lit "content", JStr [0x62])]].
Proof.
  destruct (C10_blank_lines_are_numbered blob_text
              [0x0A; 0x20; 0x61; 0x0A; 0x0A; 0x62; 0x20; 0x0A] empty_world
              eq_refl)
    as (records & Hrun & _ & Hblank & Hshape).
  exists records. split; [exact Hrun|].
  split; [exact (Hblank 1%nat eq_refl)|].
  exact (Hshape [0x61] [0x62] eq_refl eq_refl).
Defined.

(** *** The pipeline without a token *)

(** Counterexample to C9 as worded.  With [OBSERVE_API_TOKEN] not set the
    invocation goes on as usual: the record is posted, with the header
    [Authorization: Bearer None]. *)
Lemma C9_counterexample :
  Ref.os_getenv_no_token "OBSERVE_API_TOKEN" = None
  /\ blob_trigger Ref.json_loads Ref.json_dumps Ref.xmltodict_parse
       Ref.gzip_compress Ref.requests_post Ref.os_getenv_no_token
       blob_one_line empty_world
     = (Ok tt,
        mk_World
          [Info_blob_processed (lit "a.txt") 1; Info_observe_response 200 []]
          [mk_request (Some (lit "https://collect.example/v1/http"))
             [(lit "Authorization", lit "Bearer None");
              (lit "Content-type", lit "application/x-ndjson");
              (lit "Content-encoding", lit "gzip")]
             (encode_utf8 (Ref.json_dumps (line_record 0 [0x78])))]
          [[line_record 0 [0x78]]]).
Proof. split; vm_compute; reflexivity. Qed.

(** * More on the batcher *)

Section BatcherMore.

Variable json_dumps : json -> str.
Variable gzip_compress : bytes -> bytes.
Variable requests_post : list request -> request -> result response.

Lemma batch_size_nonneg (batch : list json) : 0 <= batch_size json_dumps batch.
Proof.
  unfold batch_size. induction batch as [|r batch IH]; cbn [fold_right].
  - lia.
  - pose proof (size_nonneg json_dumps r). lia.
Qed.

Lemma batch_size_cons (r : json) (batch : list json) :
  batch_size json_dumps (r :: batch)
  = serialized_size json_dumps r + batch_size json_dumps batch.
Proof. reflexivity. Qed.

(** Data that fits under the ceiling with what is already accumulated is
    appended without a flush. *)
Lemma flushed_fits (data : list json) :
  forall (batch : list json) (current : Z),
    0 <= current ->
    current + batch_size json_dumps data <= MAX_UNCOMPRESSED_SIZE ->
    flushed json_dumps data batch current = ([], batch ++ data).
Proof.
  induction data as [|r data IH]; intros batch current Hcur Hfit.
  - cbn. now rewrite app_nil_r.
  - rewrite batch_size_cons in Hfit. cbn [flushed].
    pose proof (size_nonneg json_dumps r) as Hr.
    pose proof (batch_size_nonneg data) as Hd.
    destruct (Z.gtb_spec (current + serialized_size json_dumps r)
                         MAX_UNCOMPRESSED_SIZE) as [Hgt|Hle]; [lia|].
    rewrite IH by lia. now rewrite <- app_assoc.
Qed.


(** The batches that [flushed] closes, followed by the one it ends with:
    the first of them extends the batch it started from, and none but the
    last could have taken the first record of the next. *)
Lemma flushed_closed_when_full (data : list json) :
  forall (batch : list json),
    let '(closed, last) :=
      flushed json_dumps data batch (batch_size json_dumps batch) in
    closed_when_full json_dumps (closed ++ [last])
    /\ exists more rest, closed ++ [last] = (batch ++ more) :: rest.
Proof.
  induction data as [|r data IH]; intros batch.
  - cbn. split.
    + intros [|x bs1] b1 b2 bs2 H; [discriminate|].
      injection H as _ H. destruct bs1; discriminate.
    + exists [], []. now rewrite app_nil_r.
  - cbn [flushed].
    destruct (Z.gtb_spec (batch_size json_dumps batch
                          + serialized_size json_dumps r)
                         MAX_UNCOMPRESSED_SIZE) as [Hgt|Hle].
    + specialize (IH [r]).
      replace (batch_size json_dumps [r]) with (serialized_size json_dumps r)
        in IH by (cbn; lia).
      destruct (flushed json_dumps data [r] (serialized_size json_dumps r))
        as [closed last].
      destruct IH as [Hadj (more & rest & Hhead)]. split.
      * cbn [app]. intros [|x bs1] b1 b2 bs2 H; cbn [app] in H.
        -- injection H as <- H. rewrite Hhead in H. injection H as <- _.
           exists r, more. split; [reflexivity|lia].
        -- injection H as _ H. exact (Hadj bs1 b1 b2 bs2 H).
      * exists [], (closed ++ [last]). now rewrite app_nil_r.
    + specialize (IH (batch ++ [r])).
      replace (batch_size json_dumps (batch ++ [r]))
        with (batch_size json_dumps batch + serialized_size json_dumps r)
        in IH by (rewrite batch_size_app; cbn; lia).
      destruct (flushed json_dumps data (batch ++ [r]) _) as [closed last].
      destruct IH as [Hadj (more & rest & Hhead)]. split; [exact Hadj|].
      exists (r :: more), rest. rewrite Hhead, <- app_assoc. reflexivity.
Qed.

Lemma all_flushed_cons (r : json) (data : list json) :
  exists closed last,
    flushed json_dumps (r :: data) [] 0 = (closed, last)
    /\ last <> []
    /\ all_flushed json_dumps (r :: data) = closed ++ [last].
Proof.
  unfold all_flushed. cbn [flushed].
  destruct (0 + serialized_size json_dumps r >? MAX_UNCOMPRESSED_SIZE).
  - destruct (flushed_nonempty json_dumps data [r]
                (serialized_size json_dumps r)) as [_ Hlast]; [discriminate|].
    destruct (flushed json_dumps data [r] _) as [closed last]. cbn in Hlast.
    exists ([] :: closed), last. repeat split; auto.
    destruct last; [now elim Hlast | reflexivity].
  - destruct (flushed_nonempty json_dumps data ([] ++ [r])
                (0 + serialized_size json_dumps r)) as [_ Hlast]; [discriminate|].
    destruct (flushed json_dumps data ([] ++ [r]) _) as [closed last].
    cbn in Hlast. exists closed, last. repeat split; auto.
    destruct last; [now elim Hlast | reflexivity].
Qed.

Lemma all_flushed_closed_when_full (data : list json) :
  closed_when_full json_dumps (all_flushed json_dumps data).
Proof.
  destruct data as [|r data].
  - intros [|x bs1] b1 b2 bs2 H; discriminate.
  - destruct (all_flushed_cons r data) as (closed & last & Hfl & _ & ->).
    pose proof (flushed_closed_when_full (r :: data) []) as H.
    change (batch_size json_dumps []) with 0 in H. rewrite Hfl in H.
    apply H.
Qed.

(** X6.  Whatever [requests.post] returns or raises, every batch whose
    compressed payload is within [MAX_COMPRESSED_SIZE] is posted, in the
    order of the batches, and no other body is posted: a failed POST does
    not stop the batches after it. *)
Theorem X6_every_batch_within_ceiling_is_posted (stream : list json)
    (endpoint token : option str) (w : World) :
  exists (w' : World) (batches : list (list json)),
    batch_and_send_to_observe json_dumps gzip_compress requests_post stream
                              endpoint token w
    = (Ok tt, w')
    /\ handed w' = handed w ++ batches
    /\ map data (posts w')
       = map data (posts w)
         ++ filter (fun gz => negb (len gz >? MAX_COMPRESSED_SIZE))
                   (map (envelope json_dumps gzip_compress) batches).
Proof.
  eexists; exists (all_flushed json_dumps stream).
  split; [apply batcher_sends_all_flushed|].
  split; [apply send_all_handed | apply send_all_bodies].
Qed.


(** X8.  Records whose serialized sizes add up to at most
    [MAX_UNCOMPRESSED_SIZE] are sent as one batch, the whole stream. *)
Theorem X8_small_stream_is_one_batch (data : list json)
    (endpoint token : option str) (w : World) :
  data <> [] ->
  batch_size json_dumps data <= MAX_UNCOMPRESSED_SIZE ->
  exists w' : World,
    batch_and_send_to_observe json_dumps gzip_compress requests_post data
                              endpoint token w
    = (Ok tt, w')
    /\ handed w' = handed w ++ [data].
Proof.
  intros Hne Hfit. eexists. split; [apply batcher_sends_all_flushed|].
  rewrite send_all_handed. unfold all_flushed.
  rewrite (flushed_fits data [] 0) by lia. cbn [app].
  destruct data; [now elim Hne | reflexivity].
Qed.

(** X9.  The batcher closes a batch only when the next record does not
    fit: of two batches handed over one after the other, the second is not
    empty and its first record, added to the first batch, would pass
    [MAX_UNCOMPRESSED_SIZE]. *)
Theorem X9_batches_are_closed_when_full (data : list json)
    (endpoint token : option str) (w : World) :
  exists (w' : World) (batches : list (list json)),
    batch_and_send_to_observe json_dumps gzip_compress requests_post data
                              endpoint token w
    = (Ok tt, w')
    /\ handed w' = handed w ++ batches
    /\ forall bs1 b1 b2 bs2,
         batches = bs1 ++ b1 :: b2 :: bs2 ->
         exists r rest,
           b2 = r :: rest
           /\ batch_size json_dumps b1 + serialized_size json_dumps r
              > MAX_UNCOMPRESSED_SIZE.
Proof.
  eexists; exists (all_flushed json_dumps data).
  split; [apply batcher_sends_all_flushed|].
  split; [apply send_all_handed | apply all_flushed_closed_when_full].
Qed.

(** X10.  An empty batch is handed to [send_batch] exactly when the first
    record of the stream is by itself above [MAX_UNCOMPRESSED_SIZE], and
    then only as the first batch. *)
Theorem X10_empty_batch_only_before_oversized_first (data : list json)
    (endpoint token : option str) (w : World) :
  exists (w' : World) (batches : list (list json)),
    batch_and_send_to_observe json_dumps gzip_compress requests_post data
                              endpoint token w
    = (Ok tt, w')
    /\ handed w' = handed w ++ batches
    /\ (In [] batches
        <-> exists r rest,
              data = r :: rest
              /\ serialized_size json_dumps r > MAX_UNCOMPRESSED_SIZE)
    /\ (forall bs1 bs2, batches = bs1 ++ [] :: bs2 -> bs1 = []).
Proof.
  eexists; exists (all_flushed json_dumps data).
  split; [apply batcher_sends_all_flushed|].
  split; [apply send_all_handed|].
  split; [apply empty_batch_iff_oversized_first|].
  intros bs1 bs2 H. destruct bs1 as [|b1 bs1]; [reflexivity|exfalso].
  pose proof (all_flushed_closed_when_full data) as Hadj.
  destruct (@exists_last _ (b1 :: bs1)) as (front & b & Hfront); [discriminate|].
  rewrite Hfront, <- app_assoc in H. cbn [app] in H.
  destruct (Hadj front b [] bs2 H) as (r & rest & Hnil & _). discriminate.
Qed.

End BatcherMore.

(** * More on the handlers and the pipeline *)

Lemma lstrip_whitespace (s : str) : forallb isspace s = true -> lstrip s = [].
Proof.
  induction s as [|c s IH]; [reflexivity|]. cbn. intros H.
  apply andb_prop in H as [Hc Hs]. rewrite Hc. now apply IH.
Qed.

Lemma strip_whitespace (s : str) : forallb isspace s = true -> strip s = [].
Proof. intros H. unfold strip. now rewrite lstrip_whitespace. Qed.

(** Every line break is whitespace. *)
Lemma linebreak_isspace (c : Z) : is_linebreak c = true -> isspace c = true.
Proof.
  unfold is_linebreak, isspace.
  rewrite !orb_true_iff, !andb_true_iff, !Z.leb_le, !Z.eqb_eq. lia.
Qed.

Lemma no_linebreak_app (l1 l2 : str) :
  no_linebreak (l1 ++ l2) = no_linebreak l1 && no_linebreak l2.
Proof. apply forallb_app. Qed.

Lemma splitlines_from_no_linebreak (n : nat) :
  forall (s line : str),
    (List.length s <= n)%nat ->
    no_linebreak line = true ->
    Forall (fun l => no_linebreak l = true) (splitlines_from line s).
Proof.
  induction n as [|n IH]; intros s line Hn Hline.
  - destruct s; [|cbn in Hn; lia]. cbn. destruct line; auto.
  - destruct s as [|c rest]; [cbn; destruct line; auto|].
    cbn [splitlines_from]. cbn [List.length] in Hn.
    destruct (is_linebreak c) eqn:Hc.
    + constructor; [exact Hline|].
      destruct rest as [|d rest']; [apply IH; [cbn; lia | reflexivity]|].
      destruct ((c =? 0x0D) && (d =? 0x0A)); apply IH;
        try reflexivity; cbn in *; lia.
    + apply IH; [lia|]. rewrite no_linebreak_app, Hline. cbn. now rewrite Hc.
Qed.

Lemma splitlines_no_linebreak (s : str) :
  Forall (fun l => no_linebreak l = true) (splitlines s).
Proof. now apply (splitlines_from_no_linebreak _ s [] (le_n _)). Qed.

(** The line being read, if it holds a character, starts the first line. *)
Lemma splitlines_from_head (s : str) :
  forall (c : Z) (line : str),
    exists more rest, splitlines_from (c :: line) s = (c :: line ++ more) :: rest.
Proof.
  induction s as [|d s IH]; intros c line.
  - exists [], []. cbn. now rewrite app_nil_r.
  - cbn [splitlines_from]. destruct (is_linebreak d).
    + eexists [], _. rewrite app_nil_r. reflexivity.
    + destruct (IH c (line ++ [d])) as (more & rest & H).
      exists (d :: more), rest. cbn [app] in *. rewrite H, <- app_assoc.
      reflexivity.
Qed.

Ltac returns_records := left; eexists; reflexivity.
Ltac logs_error := right; left; eexists; split; [|reflexivity]; reflexivity.
Ltac raises := right; right; eexists; reflexivity.

Section HandlersMore.

Variable json_loads : str -> result json.
Variable json_dumps : json -> str.
Variable xmltodict_parse : str -> result json.
Variable gzip_compress : bytes -> bytes.
Variable requests_post : list request -> request -> result response.

Lemma handle_ndjson_undecodable (blob : bytes) (e : exn) (w : World) :
  decode_utf8 blob = Raise e ->
  handle_ndjson json_loads blob w = (Raise UnicodeDecodeError, w).
Proof.
  intros Hd. pose proof (decode_utf8_raises blob e Hd) as ->.
  run_handler. rewrite Hd. reflexivity.
Qed.

Lemma handle_flat_text_undecodable (blob : bytes) (e : exn) (w : World) :
  decode_utf8 blob = Raise e ->
  handle_flat_text blob w = (Raise UnicodeDecodeError, w).
Proof.
  intros Hd. pose proof (decode_utf8_raises blob e Hd) as ->.
  run_handler. rewrite Hd. reflexivity.
Qed.

Lemma handle_xml_runs (blob : bytes) (w : World) :
  handle_xml xmltodict_parse blob w
  = match decode_utf8 blob with
    | Raise e => (Ok None, logged w (Error_parsing_XML e))
    | Ok decoded =>
        match xmltodict_parse decoded with
        | Ok xml_dict => (Ok (Some [xml_dict]), w)
        | Raise e => (Ok None, logged w (Error_parsing_XML e))
        end
    end.
Proof.
  run_handler. destruct (decode_utf8 blob) as [decoded|e]; [|reflexivity].
  destruct (xmltodict_parse decoded); reflexivity.
Qed.

Lemma handle_ndjson_outcome (blob : bytes) :
  handler_outcome (handle_ndjson json_loads blob).
Proof.
  intros w. destruct (decode_utf8 blob) as [decoded|e] eqn:Hd.
  - rewrite (handle_ndjson_lines json_loads blob decoded w Hd).
    destruct (list_comp json_loads _) as [records|e]; [returns_records|].
    destruct (is_JSONDecodeError e); [logs_error | raises].
  - rewrite (handle_ndjson_undecodable blob e w Hd). raises.
Qed.

Lemma handle_json_outcome (blob : bytes) :
  handler_outcome (handle_json json_loads blob).
Proof.
  intros w. destruct (decode_utf8 blob) as [decoded|e] eqn:Hd.
  - rewrite (handle_json_lines json_loads blob decoded w Hd).
    destruct (list_comp json_loads _) as [records|e]; [returns_records|].
    destruct (is_JSONDecodeError e); [|raises].
    destruct (json_loads decoded) as [document|e']; [returns_records|].
    destruct (is_JSONDecodeError e'); [logs_error | raises].
  - rewrite (handle_json_undecodable json_loads blob e w Hd). raises.
Qed.

Lemma handle_flat_text_outcome (blob : bytes) :
  handler_outcome (handle_flat_text blob).
Proof.
  intros w. destruct (decode_utf8 blob) as [decoded|e] eqn:Hd.
  - rewrite (handle_flat_text_lines blob decoded w Hd). returns_records.
  - rewrite (handle_flat_text_undecodable blob e w Hd). raises.
Qed.

Lemma handle_xml_outcome (blob : bytes) :
  handler_outcome (handle_xml xmltodict_parse blob).
Proof.
  intros w. rewrite handle_xml_runs.
  destruct (decode_utf8 blob) as [decoded|e]; [|logs_error].
  destruct (xmltodict_parse decoded); [returns_records | logs_error].
Qed.

Lemma unsupported_outcome (file_name : str) :
  handler_outcome
    (bind (logging (Error_unsupported_file_type file_name))
          (fun _ => ret None)).
Proof. intros w. logs_error. Qed.

Lemma world_eta (w : World) : mk_World (log w) (posts w) (handed w) = w.
Proof. now destruct w. Qed.

(** X12.  [process_blob_content] never raises, posts nothing and sends
    nothing.  When it returns records it has logged nothing; when it returns
    [None] it has logged exactly one entry, an error. *)
Theorem X12_parse_failure_is_logged_once (blob_content : bytes)
    (file_name : str) (w : World) :
  exists (r : option (list json)) (evs : list event),
    process_blob_content json_loads xmltodict_parse blob_content file_name w
    = (Ok r, mk_World (log w ++ evs) (posts w) (handed w))
    /\ match r with
       | Some _ => evs = []
       | None => exists ev, evs = [ev] /\ is_error ev = true
       end.
Proof.
  unfold process_blob_content, try_except.
  assert (H : handler_outcome
                (if endswith file_name (lit ".ndjson")
                 then handle_ndjson json_loads blob_content
                 else if endswith file_name (lit ".json")
                 then handle_json json_loads blob_content
                 else if endswith file_name (lit ".txt")
                 then handle_flat_text blob_content
                 else if endswith file_name (lit ".xml")
                 then handle_xml xmltodict_parse blob_content
                 else bind (logging (Error_unsupported_file_type file_name))
                           (fun _ => ret None))).
  { repeat match goal with
           | |- handler_outcome (if ?c then _ else _) => destruct c
           end;
      auto using handle_ndjson_outcome, handle_json_outcome,
        handle_flat_text_outcome, handle_xml_outcome, unsupported_outcome. }
  destruct (H w) as [(records & ->)|[(ev & Hev & ->)|(e & ->)]].
  - exists (Some records), []. rewrite app_nil_r, world_eta. auto.
  - exists None, [ev]. split; [reflexivity|eauto].
  - exists None, [Error_processing_blob_content file_name e].
    split; [reflexivity|eauto].
Qed.

(** X1.  A blob whose name ends in none of [.ndjson], [.json], [.txt] and
    [.xml] is not parsed: the invocation logs the unsupported type, then
    that there is no data, and makes no POST and no call of [send_batch]. *)
Theorem X1_unsupported_suffix_is_not_sent (os_getenv : string -> option str)
    (myblob : InputStream) (blob_data : bytes) (w : World) :
  read myblob = Ok blob_data ->
  endswith (name myblob) (lit ".ndjson") = false ->
  endswith (name myblob) (lit ".json") = false ->
  endswith (name myblob) (lit ".txt") = false ->
  endswith (name myblob) (lit ".xml") = false ->
  blob_trigger json_loads json_dumps xmltodict_parse gzip_compress
               requests_post os_getenv myblob w
  = (Ok tt,
     mk_World
       (log w ++ [Info_blob_processed (name myblob) (length myblob);
                  Error_unsupported_file_type (name myblob);
                  Error_no_valid_data])
       (posts w) (handed w)).
Proof.
  intros Hread H1 H2 H3 H4. rewrite blob_trigger_runs. cbv zeta.
  rewrite Hread. unfold process_blob_content, try_except.
  rewrite H1, H2, H3, H4. unfold logged. cbn. now rewrite <- !app_assoc.
Qed.

(** X2.  A blob that is not valid UTF-8 gives no records whatever its
    name, and one log entry: for [.ndjson], [.json] and [.txt] the
    [UnicodeDecodeError] reaches [process_blob_content], which logs it; for
    [.xml] the handler itself logs it as an XML parsing error. *)
Theorem X2_undecodable_blob_gives_no_records (blob_content : bytes)
    (file_name : str) (e : exn) (w : World) :
  decode_utf8 blob_content = Raise e ->
  process_blob_content json_loads xmltodict_parse blob_content file_name w
  = (Ok None,
     logged w
       (if endswith file_name (lit ".ndjson")
           || endswith file_name (lit ".json")
           || endswith file_name (lit ".txt")
        then Error_processing_blob_content file_name UnicodeDecodeError
        else if endswith file_name (lit ".xml")
        then Error_parsing_XML UnicodeDecodeError
        else Error_unsupported_file_type file_name)).
Proof.
  intros Hd. pose proof (decode_utf8_raises blob_content e Hd) as He.
  unfold process_blob_content, try_except.
  destruct (endswith file_name (lit ".ndjson")).
  { now rewrite (handle_ndjson_undecodable blob_content e w Hd). }
  destruct (endswith file_name (lit ".json")).
  { now rewrite (handle_json_undecodable json_loads blob_content e w Hd). }
  destruct (endswith file_name (lit ".txt")).
  { now rewrite (handle_flat_text_undecodable blob_content e w Hd). }
  destruct (endswith file_name (lit ".xml")); [|reflexivity].
  rewrite handle_xml_runs, Hd, He. reflexivity.
Qed.

(** X3.  [handle_xml] never raises.  It returns exactly one record, the
    document [xmltodict.parse] made of the decoded text, and logs nothing;
    or, when decoding or parsing raises, it returns [None] and logs that
    exception as an XML parsing error. *)
Theorem X3_handle_xml_one_record_or_none (blob_content : bytes) (w : World) :
  (exists decoded xml_dict,
      decode_utf8 blob_content = Ok decoded
      /\ xmltodict_parse decoded = Ok xml_dict
      /\ handle_xml xmltodict_parse blob_content w
         = (Ok (Some [xml_dict]), w))
  \/ (exists e,
         (decode_utf8 blob_content = Raise e
          \/ exists decoded,
               decode_utf8 blob_content = Ok decoded
               /\ xmltodict_parse decoded = Raise e)
         /\ handle_xml xmltodict_parse blob_content w
            = (Ok None, logged w (Error_parsing_XML e))).
Proof.
  rewrite handle_xml_runs.
  destruct (decode_utf8 blob_content) as [decoded|e]; [|right; eauto].
  destruct (xmltodict_parse decoded) as [xml_dict|e] eqn:Hp.
  - left. eauto.
  - right. exists e. split; [right; eauto | reflexivity].
Qed.

(** X4.  A [.ndjson], [.json] or [.txt] blob that holds nothing but
    whitespace (an empty blob too) gives an empty list of records, which
    [blob_trigger] treats like a failed parse: it logs that there is no
    valid data and sends nothing. *)
Theorem X4_blank_blob_is_reported_as_no_data
    (os_getenv : string -> option str) (myblob : InputStream)
    (blob_data : bytes) (decoded : str) (w : World) :
  read myblob = Ok blob_data ->
  decode_utf8 blob_data = Ok decoded ->
  forallb isspace decoded = true ->
  endswith (name myblob) (lit ".ndjson")
  || endswith (name myblob) (lit ".json")
  || endswith (name myblob) (lit ".txt") = true ->
  blob_trigger json_loads json_dumps xmltodict_parse gzip_compress
               requests_post os_getenv myblob w
  = (Ok tt,
     mk_World
       (log w ++ [Info_blob_processed (name myblob) (length myblob);
                  Error_no_valid_data])
       (posts w) (handed w)).
Proof.
  intros Hread Hd Hws Hname. rewrite blob_trigger_runs. cbv zeta.
  rewrite Hread. unfold process_blob_content, try_except.
  pose proof (strip_whitespace decoded Hws) as Hstrip.
  destruct (endswith (name myblob) (lit ".ndjson")).
  { rewrite (handle_ndjson_lines json_loads blob_data decoded _ Hd), Hstrip.
    unfold logged. cbn. now rewrite <- !app_assoc. }
  destruct (endswith (name myblob) (lit ".json")).
  { rewrite (handle_json_lines json_loads blob_data decoded _ Hd), Hstrip.
    unfold logged. cbn. now rewrite <- !app_assoc. }
  destruct (endswith (name myblob) (lit ".txt")); [|discriminate].
  rewrite (handle_flat_text_lines blob_data decoded _ Hd), Hstrip.
  unfold logged. cbn. now rewrite <- !app_assoc.
Qed.

(** X5.  Whatever [handle_ndjson] accepts, [handle_json] accepts with the
    same records: the [.json] handler only adds the whole-document parse
    where the line-by-line parse fails. *)
Theorem X5_json_handler_extends_ndjson_handler (blob_content : bytes)
    (records : list json) (w w' : World) :
  handle_ndjson json_loads blob_content w = (Ok (Some records), w') ->
  handle_json json_loads blob_content w = (Ok (Some records), w').
Proof.
  intros H. destruct (decode_utf8 blob_content) as [decoded|e] eqn:Hd.
  - rewrite (handle_ndjson_lines json_loads blob_content decoded w Hd) in H.
    rewrite (handle_json_lines json_loads blob_content decoded w Hd).
    destruct (list_comp json_loads _) as [rs|e]; [exact H|].
    destruct (is_JSONDecodeError e); discriminate.
  - rewrite (handle_ndjson_undecodable blob_content e w Hd) in H.
    discriminate.
Qed.


End HandlersMore.

(** X13.  The records of a [.txt] blob: no content holds a line-break
    character, and the content of the first record is not empty and does
    not start with whitespace. *)
Theorem X13_flat_text_contents (blob_content : bytes) (decoded : str)
    (w : World) :
  decode_utf8 blob_content = Ok decoded ->
  exists (records : list json) (lines : list str),
    handle_flat_text blob_content w = (Ok (Some records), w)
    /\ List.length records = List.length lines
    /\ (forall i line,
          nth_error lines i = Some line ->
          nth_error records i
          = Some (JDict [(lit "line_number", JInt (Z.of_nat i + 1));
                         (lit "content", JStr line)])
          /\ no_linebreak line = true)
    /\ (forall first others,
          lines = first :: others ->
          exists c more, first = c :: more /\ isspace c = false).
Proof.
  intros Hd. set (lines := splitlines (strip decoded)).
  exists (enumerate_from 0 line_record lines), lines.
  destruct (enumerate_from_nth line_record lines 0) as [Hlen Hnth].
  split; [now apply handle_flat_text_lines|]. split; [exact Hlen|]. split.
  - intros i line Hi. split; [rewrite (Hnth i line Hi); reflexivity|].
    pose proof (splitlines_no_linebreak (strip decoded)) as Hall.
    rewrite Forall_forall in Hall. apply Hall.
    now apply nth_error_In with i.
  - intros first others Hlines. subst lines.
    destruct (strip_spec decoded) as (_ & _ & _ & _ & _ & Hhd & _).
    destruct (strip decoded) as [|c t] eqn:Hs; [discriminate|].
    unfold splitlines in Hlines. cbn [splitlines_from] in Hlines.
    destruct (is_linebreak c) eqn:Hc.
    { apply linebreak_isspace in Hc. congruence. }
    cbn [app] in Hlines.
    destruct (splitlines_from_head t c []) as (more & rest & Hsp).
    rewrite Hsp in Hlines. injection Hlines as <- _.
    exists c, more. auto.
Qed.

(** *** The added properties on concrete inputs *)

(** Witness of X1: [a.csv], and [A.TXT], whose suffix is not in lower
    case. *)
Lemma X1_witness :
  blob_trigger Ref.json_loads Ref.json_dumps Ref.xmltodict_parse
    Ref.gzip_compress Ref.requests_post Ref.os_getenv_no_token blob_csv
    empty_world
  = (Ok tt,
     mk_World [Info_blob_processed (lit "a.csv") 3;
               Error_unsupported_file_type (lit "a.csv");
               Error_no_valid_data] [] [])
  /\ blob_trigger Ref.json_loads Ref.json_dumps Ref.xmltodict_parse
       Ref.gzip_compress Ref.requests_post Ref.os_getenv_no_token
       blob_upper_case_suffix empty_world
     = (Ok tt,
        mk_World [Info_blob_processed (lit "A.TXT") 3;
                  Error_unsupported_file_type (lit "A.TXT");
                  Error_no_valid_data] [] []).
Proof.
  split.
  - exact (X1_unsupported_suffix_is_not_sent Ref.json_loads Ref.json_dumps
             Ref.xmltodict_parse Ref.gzip_compress Ref.requests_post
             Ref.os_getenv_no_token blob_csv [x61; x2c; x62] empty_world
             eq_refl eq_refl eq_refl eq_refl eq_refl).
  - exact (X1_unsupported_suffix_is_not_sent Ref.json_loads Ref.json_dumps
             Ref.xmltodict_parse Ref.gzip_compress Ref.requests_post
             Ref.os_getenv_no_token blob_upper_case_suffix [x61; x2c; x62]
             empty_world eq_refl eq_refl eq_refl eq_refl eq_refl).
Defined.

(** Witness of X2: the byte [0xFF] as a [.txt] and as an [.xml] blob. *)
Lemma X2_witness :
  process_blob_content Ref.json_loads Ref.xmltodict_parse blob_not_utf8
    (lit "a.txt") empty_world
  = (Ok None,
     logged empty_world
       (Error_processing_blob_content (lit "a.txt") UnicodeDecodeError))
  /\ process_blob_content Ref.json_loads Ref.xmltodict_parse blob_not_utf8
       (lit "a.xml") empty_world
     = (Ok None, logged empty_world (Error_parsing_XML UnicodeDecodeError)).
Proof.
  split.
  - exact (X2_undecodable_blob_gives_no_records Ref.json_loads
             Ref.xmltodict_parse blob_not_utf8 (lit "a.txt")
             UnicodeDecodeError empty_world eq_refl).
  - exact (X2_undecodable_blob_gives_no_records Ref.json_loads
             Ref.xmltodict_parse blob_not_utf8 (lit "a.xml")
             UnicodeDecodeError empty_world eq_refl).
Defined.

(** Witness of X4: a [.txt] blob of a space and a line feed, and an empty
    [.json] blob. *)
Lemma X4_witness :
  blob_trigger Ref.json_loads Ref.json_dumps Ref.xmltodict_parse
    Ref.gzip_compress Ref.requests_post Ref.os_getenv_no_token
    blob_blank_text empty_world
  = (Ok tt,
     mk_World [Info_blob_processed (lit "blank.txt") 2; Error_no_valid_data]
              [] [])
  /\ blob_trigger Ref.json_loads Ref.json_dumps Ref.xmltodict_parse
       Ref.gzip_compress Ref.requests_post Ref.os_getenv_no_token
       blob_empty_json empty_world
     = (Ok tt,
        mk_World [Info_blob_processed (lit "empty.json") 0;
                  Error_no_valid_data] [] []).
Proof.
  split.
  - exact (X4_blank_blob_is_reported_as_no_data Ref.json_loads Ref.json_dumps
             Ref.xmltodict_parse Ref.gzip_compress Ref.requests_post
             Ref.os_getenv_no_token blob_blank_text [x20; x0a] [0x20; 0x0A]
             empty_world eq_refl eq_refl eq_refl eq_refl).
  - exact (X4_blank_blob_is_reported_as_no_data Ref.json_loads Ref.json_dumps
             Ref.xmltodict_parse Ref.gzip_compress Ref.requests_post
             Ref.os_getenv_no_token blob_empty_json [] [] empty_world
             eq_refl eq_refl eq_refl eq_refl).
Defined.

(** Witness of X5: two lines of JSON, through both handlers. *)
Lemma X5_witness :
  handle_ndjson Ref.json_loads blob_two_lines empty_world
  = (Ok (Some [JInt 1; JInt 2]), empty_world)
  /\ handle_json Ref.json_loads blob_two_lines empty_world
     = (Ok (Some [JInt 1; JInt 2]), empty_world).
Proof.
  assert (H : handle_ndjson Ref.json_loads blob_two_lines empty_world
              = (Ok (Some [JInt 1; JInt 2]), empty_world))
    by (vm_compute; reflexivity).
  split; [exact H|].
  exact (X5_json_handler_extends_ndjson_handler Ref.json_loads blob_two_lines
           [JInt 1; JInt 2] empty_world empty_world H).
Defined.

(** Witness of X8: two small records are one batch. *)
Lemma X8_witness :
  exists w' : World,
    batch_and_send_to_observe Ref.json_dumps Ref.gzip_compress
      Ref.requests_post [JInt 1; JInt 2] None None empty_world
    = (Ok tt, w')
    /\ handed w' = [[JInt 1; JInt 2]].
Proof.
  apply (X8_small_stream_is_one_batch Ref.json_dumps Ref.gzip_compress
           Ref.requests_post [JInt 1; JInt 2] None None empty_world).
  - discriminate.
  - vm_compute. discriminate.
Defined.


(** Witness of X13: ["\n a\n\nb \n"] gives the contents [a], the empty
    string and [b]. *)
Lemma X13_witness :
  exists (records : list json) (lines : list str),
    handle_flat_text blob_text empty_world = (Ok (Some records), empty_world)
    /\ List.length records = List.length lines
    /\ (forall i line,
          nth_error lines i = Some line ->
          nth_error records i
          = Some (JDict [(lit "line_number", JInt (Z.of_nat i + 1));
                         (lit "content", JStr line)])
          /\ no_linebreak line = true)
    /\ (forall first others,
          lines = first :: others ->
          exists c more, first = c :: more /\ isspace c = false).
Proof.
  exact (X13_flat_text_contents blob_text
           [0x0A; 0x20; 0x61; 0x0A; 0x0A; 0x62; 0x20; 0x0A] empty_world
           eq_refl).
Defined.
